(** * The Hugging Face model ETL pipeline ([src/dags/app.py])

    A shallow embedding of the three task callables of the DAG
    [huggingface_model_etl] -- [extract_model_data], [transform_model_data]
    and [load_to_postgres] -- together with the parts of their environment
    they talk to: the XCom hand-off store, the hub listing API and the
    Postgres table [ai_models].

    Python dictionaries are finite maps from strings to values, the [seen]
    set of the transformer is a finite set of values, exceptions are an
    explicit [Raise] result, and every callable threads the state it
    mutates (the task instance, the database session) explicitly.
    Calls to [print] have no effect on any of that and are left out. *)

From stdpp Require Import gmap strings list fin_maps pretty.

(** ** Python values *)

(** The values that travel through the pipeline: [None], [str] and a
    list of [str] (the [tags]). *)
Inductive value : Type :=
  | VNone
  | VStr (s : string)
  | VList (l : list string).

#[global] Instance value_eq_dec : EqDecision value.
Proof. solve_decision. Defined.

Definition value_code (v : value) : unit + (string + list string) :=
  match v with
  | VNone => inl tt
  | VStr s => inr (inl s)
  | VList l => inr (inr l)
  end.

Definition value_decode (c : unit + (string + list string)) : value :=
  match c with
  | inl _ => VNone
  | inr (inl s) => VStr s
  | inr (inr l) => VList l
  end.

#[global] Instance value_countable : Countable value.
Proof.
  refine (inj_countable' value_code value_decode _).
  intros []; reflexivity.
Defined.

(** A Python [dict] with string keys. *)
Abbreviation dict := (gmap string value).

(** Truth value of an object: [None], [''] and [[]] are falsy. *)
Definition py_truthy (v : value) : bool :=
  match v with
  | VNone => false
  | VStr s => negb (String.eqb s "")
  | VList l => match l with [] => false | _ :: _ => true end
  end.

(** [a or b]. *)
Definition py_or (a b : value) : value :=
  if py_truthy a then a else b.

(** [m.get(k)]: [None] when the key is missing. *)
Definition dict_get (m : dict) (k : string) : value :=
  default VNone (m !! k).

(** ** Exceptions *)

(** An exception object: an instance of a class deriving from
    [Exception], with its class name and its message. *)
Inductive exn : Type :=
  | Exn (cls : string) (msg : string).

Definition KeyError (k : string) : exn := Exn "KeyError" k.
Definition AttributeError (a : string) : exn := Exn "AttributeError" a.
Definition TypeError (msg : string) : exn := Exn "TypeError" msg.

Inductive result (A : Type) : Type :=
  | Ok (a : A)
  | Raise (e : exn).
Arguments Ok {A} a.
Arguments Raise {A} e.

#[global] Instance result_ret : MRet result := @Ok.

#[global] Instance result_bind : MBind result := fun A B k r =>
  match r with
  | Ok a => k a
  | Raise e => Raise e
  end.

(** [m[k]]: raises [KeyError] when the key is missing. *)
Definition dict_item (m : dict) (k : string) : result value :=
  match m !! k with
  | Some v => Ok v
  | None => Raise (KeyError k)
  end.

(** ** The XCom hand-off store *)

(** A task instance: the id of the running task and the XCom entries of
    the DAG run, addressed by the pushing task's id and a key. *)
Record task_instance : Type := {
  task_id : string;
  xcom : gmap (string * string) (list dict);
}.

(** [ti.xcom_push(key=key, value=value)] *)
Definition xcom_push (ti : task_instance) (key : string) (v : list dict)
  : task_instance :=
  {| task_id := task_id ti; xcom := <[(task_id ti, key) := v]> (xcom ti) |}.

(** [ti.xcom_pull(key=key, task_ids=task_ids)]: [None] when nothing was
    pushed. *)
Definition xcom_pull (ti : task_instance) (key task_ids : string)
  : option (list dict) :=
  xcom ti !! (task_ids, key).

(** [x or []] on a pulled value. *)
Definition or_empty (x : option (list dict)) : list dict :=
  match x with
  | Some (m :: l) => m :: l
  | Some [] => []
  | None => []
  end.

(** The [task_id]s given to the three operators. *)
Definition extract_task_id : string := "extract_huggingface_models".
Definition transform_task_id : string := "transform_model_data".
Definition load_task_id : string := "load_to_postgres".

(** ** EXTRACT *)

(** The keyword arguments of [list_models]. *)
Record request : Type := {
  sort : string;
  direction : Z;
  limit : nat;
  cardData : bool;
}.

(** What [list_models] answers: the call raises, or it hands back an
    iterable that yields [items] in order and then either is exhausted
    ([stop = None]) or raises ([stop = Some e]). *)
Inductive listing : Type :=
  | ListingRaises (e : exn)
  | Listing (items : list dict) (stop : option exn).

Module Extract.

(** [m.a] on a hub object, given by its attribute dictionary. *)
Definition getattr (m : dict) (a : string) : result value :=
  match m !! a with
  | Some v => Ok v
  | None => Raise (AttributeError a)
  end.

(** [m.a if m.a else d] *)
Definition attr_or (m : dict) (a : string) (d : value) : result value :=
  c ← getattr m a;
  if py_truthy c then getattr m a else Ok d.

(** [list_models(sort="lastModified", direction=-1, limit=50, cardData=True)] *)
Definition hub_request : request :=
  {| sort := "lastModified"; direction := (-1)%Z; limit := 50;
     cardData := true |}.

Section WithEnvironment.

(** The hub client and the built-in [str]. *)
Variable list_models : request -> listing.
Variable py_str : value -> string.

(** The dictionary display of lines 50-56 for one model [m]; the entries
    are evaluated in the order they are written. *)
Definition raw_record (m : dict) : result dict :=
  model_id ← getattr m "id";
  author ← attr_or m "author" VNone;
  pipeline_tag ← attr_or m "pipeline_tag" VNone;
  tags ← attr_or m "tags" (VList []);
  lastModified ← getattr m "lastModified";
  Ok (<["model_id" := model_id]>
     (<["author" := author]>
     (<["pipeline_tag" := pipeline_tag]>
     (<["tags" := tags]>
     (<["last_modified" := VStr (py_str lastModified)]> ∅))))).

(** The list comprehension [[{...} for m in models]]: each item is
    mapped as soon as it is yielded. *)
Fixpoint comprehension (items : list dict) (stop : option exn)
  : result (list dict) :=
  match items with
  | [] => match stop with
          | Some e => Raise e
          | None => Ok []
          end
  | m :: rest =>
      r ← raw_record m;
      rs ← comprehension rest stop;
      Ok (r :: rs)
  end.

(** The two statements of the [try] block that compute [raw_models]. *)
Definition fetch_raw_models : result (list dict) :=
  match list_models hub_request with
  | ListingRaises e => Raise e
  | Listing items stop => comprehension items stop
  end.

Definition extract_model_data (ti : task_instance)
  : result string * task_instance :=
  match fetch_raw_models with
  | Ok raw_models =>
      (Ok "Extract completed successfully",
       xcom_push ti "raw_models" raw_models)
  | Raise e =>
      (Ok "Extract failed", xcom_push ti "raw_models" [])
  end.

End WithEnvironment.

End Extract.

(** ** TRANSFORM *)

Module Transform.

(** [mid in seen]: hashing a list raises [TypeError]. *)
Definition set_contains (seen : gset value) (mid : value) : result bool :=
  match mid with
  | VList _ => Raise (TypeError "unhashable type: 'list'")
  | _ => Ok (bool_decide (mid ∈ seen))
  end.

(** The dictionary appended at lines 94-100. *)
Definition clean_record (mid : value) (m : dict) : dict :=
  <["model_id" := mid]>
  (<["author" := py_or (dict_get m "author") (VStr "N/A")]>
  (<["pipeline_tag" := py_or (dict_get m "pipeline_tag") (VStr "N/A")]>
  (<["tags" := py_or (dict_get m "tags") (VList [])]>
  (<["last_modified" := dict_get m "last_modified"]> ∅)))).

(** One iteration of the [for m in raw_models] loop on the pair
    [(transformed_data, seen)]. *)
Definition transform_step (st : list dict * gset value) (m : dict)
  : result (list dict * gset value) :=
  let mid := dict_get m "model_id" in
  if negb (py_truthy mid) then Ok st
  else
    dup ← set_contains (snd st) mid;
    if (dup : bool) then Ok st
    else Ok (fst st ++ [clean_record mid m], {[mid]} ∪ snd st).

Fixpoint transform_loop (raw_models : list dict) (st : list dict * gset value)
  : result (list dict * gset value) :=
  match raw_models with
  | [] => Ok st
  | m :: rest => st' ← transform_step st m; transform_loop rest st'
  end.

(** The value of [transformed_data] after the loop. *)
Definition transform_records (raw_models : list dict) : result (list dict) :=
  st ← transform_loop raw_models ([], ∅); Ok (fst st).

Definition transform_model_data (ti : task_instance)
  : result string * task_instance :=
  let raw_models := or_empty (xcom_pull ti "raw_models" extract_task_id) in
  match transform_records raw_models with
  | Ok transformed_data =>
      (Ok "Transform completed successfully",
       xcom_push ti "transformed_models" transformed_data)
  | Raise e => (Raise e, ti)
  end.

End Transform.

(** ** LOAD *)

(** The five parameters bound to one [INSERT], which are also the five
    columns of a row of [ai_models]. *)
Record row : Type := {
  model_id : value;
  author : value;
  pipeline_tag : value;
  tags : value;
  last_modified : value;
}.

#[global] Instance row_eq_dec : EqDecision row.
Proof. solve_decision. Defined.

(** The two statements the loader sends. *)
Inductive statement : Type :=
  | CreateTable
  | Insert (parameters : row).

(** The database as the loader sees it through [PostgresHook.run]: the
    committed content of [ai_models] ([None] while the table does not
    exist), the statements received so far, and the faults to come: the
    statement received next fails exactly when the head of [faults] is
    [true]. Whatever makes Postgres refuse a statement is such a fault. *)
Record database : Type := {
  ai_models : option (list row);
  journal : list statement;
  faults : list bool;
}.

Definition DatabaseError (msg : string) : exn := Exn "DatabaseError" msg.

Module Load.

(** [INSERT ... ON CONFLICT (model_id) DO UPDATE SET ...]: the row with
    the same key takes the four incoming columns where it stands, a new
    key is appended. The list is one arrangement of the rows, a table
    has no order of its own; and the columns are kept as they were
    bound, the database holding what its casts make of them. *)
Fixpoint upsert (p : row) (rows : list row) : list row :=
  match rows with
  | [] => [p]
  | r :: rest =>
      if decide (model_id r = model_id p)
      then {| model_id := model_id r; author := author p;
              pipeline_tag := pipeline_tag p; tags := tags p;
              last_modified := last_modified p |} :: rest
      else r :: upsert p rest
  end.

(** The effect of a statement on the table; [None] when the table it
    names does not exist. *)
Definition execute (q : statement) (t : option (list row))
  : option (option (list row)) :=
  match q, t with
  | CreateTable, None => Some (Some [])
  | CreateTable, Some rows => Some (Some rows)
  | Insert p, Some rows => Some (Some (upsert p rows))
  | Insert _, None => None
  end.

(** [postgres_hook.run(q)]: one statement in a transaction of its own,
    committed when it succeeds and without effect when it fails. *)
Definition hook_run (q : statement) (db : database) : result unit * database :=
  let received t :=
    {| ai_models := t; journal := journal db ++ [q];
       faults := tail (faults db) |} in
  match faults db with
  | true :: _ => (Raise (DatabaseError "statement failed"), received (ai_models db))
  | _ =>
      match execute q (ai_models db) with
      | Some t => (Ok (), received t)
      | None =>
          (Raise (DatabaseError "relation does not exist"),
           received (ai_models db))
      end
  end.

(** The parameter tuple of lines 151-157, evaluated left to right. *)
Definition parameters_of (model : dict) : result row :=
  a ← dict_item model "model_id";
  b ← dict_item model "author";
  c ← dict_item model "pipeline_tag";
  d ← dict_item model "tags";
  e ← dict_item model "last_modified";
  Ok {| model_id := a; author := b; pipeline_tag := c; tags := d;
        last_modified := e |}.

(** The [for model in transformed_data] loop. *)
Fixpoint load_loop (transformed_data : list dict) (db : database)
  : result unit * database :=
  match transformed_data with
  | [] => (Ok (), db)
  | model :: rest =>
      match parameters_of model with
      | Raise e => (Raise e, db)
      | Ok p =>
          match hook_run (Insert p) db with
          | (Ok _, db') => load_loop rest db'
          | (Raise e, db') => (Raise e, db')
          end
      end
  end.

Definition load_to_postgres (ti : task_instance) (db : database)
  : result string * database :=
  match xcom_pull ti "transformed_models" transform_task_id with
  | None => (Ok "No data to load", db)
  | Some [] => (Ok "No data to load", db)
  | Some (m :: l) =>
      let transformed_data := m :: l in
      match hook_run CreateTable db with
      | (Raise e, db1) => (Raise e, db1)
      | (Ok _, db1) =>
          match load_loop transformed_data db1 with
          | (Ok _, db2) =>
              (Ok ("loaded " +:+ pretty (length transformed_data) +:+ " models"),
               db2)
          | (Raise e, db2) => (Raise e, db2)
          end
      end
  end.

End Load.

(** ** The DAG *)

Module Pipeline.

(** The task instance a task of the run is called with: its own
    [task_id] and the XCom entries of the run. *)
Definition task (tid : string) (store : gmap (string * string) (list dict))
  : task_instance :=
  {| task_id := tid; xcom := store |}.

(** What the scheduler does when a task starts: the entries the task
    pushed in an earlier try are deleted. *)
Definition clear_xcom_data (tid : string)
    (store : gmap (string * string) (list dict))
  : gmap (string * string) (list dict) :=
  map_imap (fun k v => if decide (k.1 = tid) then None else Some v) store.

(** The task instance of a task that starts on the entries [store]. *)
Definition start (tid : string) (store : gmap (string * string) (list dict))
  : task_instance :=
  task tid (clear_xcom_data tid store).

Section WithEnvironment.

Variable list_models : request -> listing.
Variable py_str : value -> string.

(** One try of each task in the order of the chain
    [extract_task >> transform_task >> load_task]: a task is started
    when the one before it has returned, and an exception ends the run.
    It yields the three returned statuses, the XCom entries the
    callables left and the database. The entries the operators
    themselves add under [return_value] for the returned statuses are
    read by no callable and are not kept in this store. *)
Definition run (store : gmap (string * string) (list dict)) (db : database)
  : result (string * string * string)
    * gmap (string * string) (list dict) * database :=
  match Extract.extract_model_data list_models py_str
          (start extract_task_id store) with
  | (Raise e, ti1) => (Raise e, xcom ti1, db)
  | (Ok s1, ti1) =>
      match Transform.transform_model_data
              (start transform_task_id (xcom ti1)) with
      | (Raise e, ti2) => (Raise e, xcom ti2, db)
      | (Ok s2, ti2) =>
          let ti3 := start load_task_id (xcom ti2) in
          match Load.load_to_postgres ti3 db with
          | (Raise e, db') => (Raise e, xcom ti3, db')
          | (Ok s3, db') => (Ok (s1, s2, s3), xcom ti3, db')
          end
      end
  end.

End WithEnvironment.

End Pipeline.

(** ** Vocabulary of the statements *)

(** The [model_id] of a record, as the transformer reads it. *)
Definition record_id (m : dict) : value := dict_get m "model_id".

(** A [model_id] is valid when it is neither absent nor empty. *)
Definition valid_id (v : value) : bool :=
  match v with
  | VNone => false
  | VStr s => negb (String.eqb s "")
  | VList l => negb (Nat.eqb (length l) 0)
  end.

(** The first occurrences of a sequence, in their order: every element
    is kept where it appears first and struck out further on. *)
Fixpoint first_occurrences (l : list value) : list value :=
  match l with
  | [] => []
  | x :: xs => x :: filter (fun y => y ≠ x) (first_occurrences xs)
  end.

(** A field is missing when its key is not there or holds [None]. *)
Definition missing (m : dict) (k : string) : Prop :=
  m !! k = None ∨ m !! k = Some VNone.

(** A field is present but falsy when its key holds an empty value that
    is not [None]. *)
Definition present_falsy (m : dict) (k : string) : Prop :=
  ∃ v, m !! k = Some v ∧ v ≠ VNone ∧ py_truthy v = false.

(** The cleaned records that carry a given [model_id]. *)
Definition entries_for (k : value) (records : list dict) : list dict :=
  filter (fun r => record_id r = k) records.

(** A [model_id] that the [seen] set can hold, or that is never put
    there. *)
Definition hashable_id (v : value) : Prop :=
  match v with
  | VList (_ :: _) => False
  | _ => True
  end.

(** The rows of a table with a given key. *)
Definition rows_with (k : value) (rows : list row) : list row :=
  filter (fun r => model_id r = k) rows.

(** The primary key constraint of [ai_models]. *)
Definition pk_unique (db : database) : Prop :=
  match ai_models db with
  | Some rows => NoDup (model_id <$> rows)
  | None => True
  end.

(** The rows of [ai_models] once [CREATE TABLE IF NOT EXISTS] has run. *)
Definition created (t : option (list row)) : list row :=
  match t with
  | Some rows => rows
  | None => []
  end.

(** A run of upserts, one after the other. *)
Definition upsert_all (rows : list row) (ps : list row) : list row :=
  foldl (fun t p => Load.upsert p t) rows ps.

(** The parameter tuples of a list of cleaned records. *)
Definition bound (transformed_data : list dict) (ps : list row) : Prop :=
  Forall2 (fun model p => Load.parameters_of model = Ok p) transformed_data ps.

(** The first of the keys [ks], in their order, that [m] lacks. *)
Fixpoint first_missing (m : dict) (ks : list string) : option string :=
  match ks with
  | [] => None
  | k :: rest =>
      match m !! k with
      | None => Some k
      | Some _ => first_missing m rest
      end
  end.

(** The attributes the extractor reads, in the order it reads them. *)
Definition raw_attributes : list string :=
  ["id"; "author"; "pipeline_tag"; "tags"; "lastModified"].

(** The keys the loader reads, in the order it reads them. *)
Definition parameter_keys : list string :=
  ["model_id"; "author"; "pipeline_tag"; "tags"; "last_modified"].

(** The keys of a raw and of a cleaned record. *)
Definition record_keys : gset string :=
  list_to_set parameter_keys.

(** An optional text field that is set: a value that is not falsy. *)
Definition filled (m : dict) (k : string) : Prop :=
  ∃ v, m !! k = Some v ∧ py_truthy v = true.

(** The cleaned record [r] takes the field [k] from the raw record [m]
    when [m] has it set, and reads [d] when [m] has it missing or
    empty. *)
Definition takes_field (r m : dict) (k : string) (d : value) : Prop :=
  (∀ v, m !! k = Some v → py_truthy v = true → r !! k = Some v)
  ∧ (¬ filled m k → r !! k = Some d).

(** The row [p] holds, column by column, the entries of the cleaned
    record [model]. *)
Definition columns_of (model : dict) (p : row) : Prop :=
  model !! "model_id" = Some (model_id p)
  ∧ model !! "author" = Some (author p)
  ∧ model !! "pipeline_tag" = Some (pipeline_tag p)
  ∧ model !! "tags" = Some (tags p)
  ∧ model !! "last_modified" = Some (last_modified p).

(** A [model_id] that cannot be hashed: a list that is not empty. *)
Definition unhashable_id (v : value) : Prop :=
  ∃ x l, v = VList (x :: l).

(** ** Sample data *)

(** The raw record of the first scenario: no author. *)
Definition sample_m1 : dict :=
  <["model_id" := VStr "m1"]>
  (<["author" := VNone]>
  (<["pipeline_tag" := VStr "text-gen"]>
  (<["tags" := VList []]>
  (<["last_modified" := VStr "2024-01-01"]> ∅)))).

(** A later, more complete record for the same model. *)
Definition sample_m1_again : dict :=
  <["model_id" := VStr "m1"]>
  (<["author" := VStr "alice"]>
  (<["pipeline_tag" := VStr "text-gen"]>
  (<["tags" := VList ["nlp"]]>
  (<["last_modified" := VStr "2024-02-02"]> ∅)))).

(** A record whose optional fields are there but empty. *)
Definition sample_m2 : dict :=
  <["model_id" := VStr "m2"]>
  (<["author" := VStr ""]>
  (<["pipeline_tag" := VStr ""]>
  (<["tags" := VList []]>
  (<["last_modified" := VStr "2024-03-03"]> ∅)))).

(** A record without [model_id]. *)
Definition sample_anonymous : dict :=
  <["author" := VStr "bob"]> (<["tags" := VList ["vision"]]> ∅).

(** A task instance of the transform task after an extraction that
    pushed [raw]. *)
Definition sample_run (raw : list dict) : task_instance :=
  {| task_id := transform_task_id;
     xcom := <[(extract_task_id, "raw_models") := raw]> ∅ |}.

(** A task instance of the transform task with nothing pushed. *)
Definition sample_fresh_run : task_instance :=
  {| task_id := transform_task_id; xcom := ∅ |}.

(** A hub object with every attribute the extractor reads. *)
Definition sample_model_info : dict :=
  <["id" := VStr "m1"]>
  (<["author" := VStr "alice"]>
  (<["pipeline_tag" := VNone]>
  (<["tags" := VList ["nlp"]]>
  (<["lastModified" := VStr "2024-01-01 00:00:00+00:00"]> ∅)))).

(** A hub object of a client version that has no [lastModified]. *)
Definition sample_model_info_renamed : dict :=
  <["id" := VStr "m2"]>
  (<["author" := VStr "bob"]>
  (<["pipeline_tag" := VStr "text-gen"]>
  (<["tags" := VList []]>
  (<["last_modified" := VStr "2024-01-01 00:00:00+00:00"]> ∅)))).

(** The raw record the extractor builds from the first object. *)
Definition sample_raw_m1 : dict :=
  <["model_id" := VStr "m1"]>
  (<["author" := VStr "alice"]>
  (<["pipeline_tag" := VNone]>
  (<["tags" := VList ["nlp"]]>
  (<["last_modified" := VStr "2024-01-01 00:00:00+00:00"]> ∅)))).

(** A hub that lists the two objects above. *)
Definition sample_hub (_ : request) : listing :=
  Listing [sample_model_info; sample_model_info_renamed] None.

(** A hub that lists one object and nothing else. *)
Definition sample_hub_small (_ : request) : listing :=
  Listing [sample_model_info] None.

(** [str] on the values of the samples. *)
Definition sample_str (v : value) : string :=
  match v with
  | VStr s => s
  | _ => "None"
  end.

(** A task instance of the extract task at the start of a run. *)
Definition sample_extract_run : task_instance :=
  {| task_id := extract_task_id; xcom := ∅ |}.

(** A task instance of the load task after a transformation that pushed
    [cleaned]. *)
Definition sample_load_run (cleaned : list dict) : task_instance :=
  {| task_id := load_task_id;
     xcom := <[(transform_task_id, "transformed_models") := cleaned]> ∅ |}.

(** Cleaned records: the transformer's output on the samples. *)
Definition sample_clean_m1 : dict :=
  Transform.clean_record (VStr "m1") sample_m1.
Definition sample_clean_m1_updated : dict :=
  Transform.clean_record (VStr "m1") sample_m1_again.
Definition sample_clean_m2 : dict :=
  Transform.clean_record (VStr "m2") sample_m2.

(** A database without the table, with the faults [fs] ahead. *)
Definition sample_db (fs : list bool) : database :=
  {| ai_models := None; journal := []; faults := fs |}.

(** What a database makes of a parameter tuple when it stores it: here
    the text of [last_modified] cut to the nineteen characters of a
    timestamp without time zone. *)
Definition sample_stored (q : row) : row :=
  {| model_id := model_id q; author := author q;
     pipeline_tag := pipeline_tag q; tags := tags q;
     last_modified :=
       match last_modified q with
       | VStr s => VStr (String.substring 0 19 s)
       | v => v
       end |}.

(** The database after one load of two cleaned records, after a second
    load of the same two, and after a load of an update instead. *)
Definition sample_loaded_once : database :=
  snd (Load.load_to_postgres
         (sample_load_run [sample_clean_m1; sample_clean_m2]) (sample_db [])).
Definition sample_loaded_twice : database :=
  snd (Load.load_to_postgres
         (sample_load_run [sample_clean_m1; sample_clean_m2])
         sample_loaded_once).
Definition sample_loaded_update : database :=
  snd (Load.load_to_postgres
         (sample_load_run [sample_clean_m1_updated]) sample_loaded_once).

(** * Properties of the transformer *)

Section TransformFacts.

Import Transform.

Lemma valid_id_truthy v : valid_id v = py_truthy v.
Proof. destruct v as [| s | [| x l]]; reflexivity. Qed.

Lemma record_id_clean mid m : record_id (clean_record mid m) = mid.
Proof. unfold record_id, dict_get, clean_record. by rewrite lookup_insert_eq. Qed.

(** The two ways an iteration ends without an exception. *)
Lemma transform_step_inv st m st' :
  transform_step st m = Ok st' →
  (st' = st ∧ (py_truthy (record_id m) = false ∨ (record_id m ∈ snd st)))
  ∨ (py_truthy (record_id m) = true ∧ (record_id m ∉ snd st)
     ∧ st' = (fst st ++ [clean_record (record_id m) m],
              {[record_id m]} ∪ snd st)).
Proof.
  unfold transform_step. fold (record_id m).
  destruct (py_truthy (record_id m)) eqn:Ht; simpl.
  - destruct (record_id m) as [| s | l] eqn:Hid; simpl; try discriminate;
      case_bool_decide; intros [= <-]; auto.
  - intros [= <-]. auto.
Qed.

Lemma transform_step_skip st m :
  py_truthy (record_id m) = false → transform_step st m = Ok st.
Proof. unfold transform_step. fold (record_id m). by intros ->. Qed.

Lemma transform_loop_app l1 l2 st :
  transform_loop (l1 ++ l2) st = (transform_loop l1 st ≫= transform_loop l2).
Proof.
  revert st. induction l1 as [| m l1 IH]; intros st; simpl; [done |].
  destruct (transform_step st m); simpl; [apply IH | done].
Qed.

Lemma filter_all {A} (P : A → Prop) `{!∀ x, Decision (P x)} (l : list A) :
  Forall P l → filter P l = l.
Proof.
  induction 1 as [| x l Hx _ IH]; [done |].
  by rewrite filter_cons_True, IH.
Qed.

(** Striking out an element and then what was seen is striking out what
    was seen, once the element is among it. *)
Lemma filter_unseen_insert (x : value) (seen : gset value) (l : list value) :
  filter (fun v => v ∉ ({[x]} ∪ seen : gset value)) l
  = filter (fun v => v ∉ seen) (filter (fun y => y ≠ x) l).
Proof.
  rewrite list_filter_filter. apply list_filter_iff. intros v. set_solver.
Qed.

Lemma filter_unseen_member (x : value) (seen : gset value) (l : list value) :
  x ∈ seen →
  filter (fun v => v ∉ seen) (filter (fun y => y ≠ x) l)
  = filter (fun v => v ∉ seen) l.
Proof.
  intros Hx. rewrite list_filter_filter. apply list_filter_iff.
  intros v. split; [tauto |]. intros Hv. split; [done |]. congruence.
Qed.

(** What a run of the loop without an exception adds to
    [transformed_data] and to [seen]. *)
Lemma transform_loop_spec raw st st' :
  transform_loop raw st = Ok st' →
  ∃ new,
    fst st' = fst st ++ new
    ∧ record_id <$> new
      = filter (fun v => v ∉ snd st)
          (first_occurrences
             (filter (fun v => valid_id v = true) (record_id <$> raw)))
    ∧ snd st' = snd st ∪ list_to_set (record_id <$> new)
    ∧ Forall (fun r => ∃ m, m ∈ raw ∧ r = clean_record (record_id m) m) new.
Proof.
  revert st. induction raw as [| m rest IH]; intros st; simpl.
  - intros [= <-]. exists []. rewrite app_nil_r. simpl.
    split_and!; [done | done | set_solver | constructor].
  - destruct (transform_step st m) as [st1 |] eqn:Hstep; simpl; [| done].
    intros Hloop. destruct (IH _ Hloop) as (new & Hout & Hids & Hseen & Hnew).
    assert (Hweaken : Forall (fun r => ∃ m0, m0 ∈ m :: rest
                                ∧ r = clean_record (record_id m0) m0) new).
    { eapply Forall_impl; [exact Hnew |]. intros r (m0 & ? & ?).
      exists m0. split; [by right | done]. }
    destruct (transform_step_inv _ _ _ Hstep)
      as [[-> [Hfalsy | Hdup]] | (Htruthy & Hfresh & ->)].
    + exists new. split_and!; try done.
      rewrite filter_cons_False; [done |].
      rewrite valid_id_truthy, Hfalsy. done.
    + exists new. split_and!; try done.
      destruct (py_truthy (record_id m)) eqn:Ht.
      * rewrite filter_cons_True by (by rewrite valid_id_truthy). simpl.
        rewrite filter_cons_False by tauto.
        by rewrite filter_unseen_member.
      * rewrite filter_cons_False; [done |].
        rewrite valid_id_truthy, Ht. done.
    + simpl in Hout, Hids, Hseen.
      exists (clean_record (record_id m) m :: new).
      rewrite fmap_cons, record_id_clean. split_and!.
      * by rewrite Hout, <- app_assoc.
      * rewrite filter_cons_True by (by rewrite valid_id_truthy). simpl.
        rewrite filter_cons_True by done.
        by rewrite Hids, filter_unseen_insert.
      * rewrite Hseen. set_solver.
      * constructor; [| done]. exists m. split; [by left | done].
Qed.

Lemma first_occurrences_subset l x : x ∈ first_occurrences l → x ∈ l.
Proof.
  induction l as [| y l IH]; simpl; [done |].
  rewrite !elem_of_cons, list_elem_of_filter. tauto.
Qed.

Lemma first_occurrences_NoDup l : NoDup (first_occurrences l).
Proof.
  induction l as [| y l IH]; simpl; [constructor |].
  constructor.
  - rewrite list_elem_of_filter. tauto.
  - by apply NoDup_filter.
Qed.

(** The output of the transformer, read off [transform_loop_spec]. *)
Lemma transform_records_spec raw out :
  transform_records raw = Ok out →
  record_id <$> out
  = first_occurrences (filter (fun v => valid_id v = true) (record_id <$> raw))
  ∧ Forall (fun r => ∃ m, m ∈ raw ∧ r = clean_record (record_id m) m) out.
Proof.
  unfold transform_records.
  destruct (transform_loop raw ([], ∅)) as [st |] eqn:Hloop; simpl; [| done].
  intros [= <-].
  destruct (transform_loop_spec _ _ _ Hloop) as (new & Hout & Hids & _ & Hnew).
  simpl in Hout, Hids. rewrite Hout. split; [| done].
  rewrite Hids. apply filter_all, Forall_forall. intros v _. set_solver.
Qed.

Lemma filter_none {A B} `{EqDecision B} (f : A → B) (k : B) (l : list A) :
  k ∉ f <$> l → filter (fun r => f r = k) l = [].
Proof.
  induction l as [| x l IH]; simpl; [done |].
  rewrite not_elem_of_cons. intros [Hx Hl].
  rewrite filter_cons_False by congruence. auto.
Qed.

(** The first record that carries a valid [model_id] is the one entry of
    the output for it. *)
Lemma first_occurrence_emitted pre m post out :
  transform_records (pre ++ m :: post) = Ok out →
  valid_id (record_id m) = true →
  record_id m ∉ record_id <$> pre →
  entries_for (record_id m) out = [clean_record (record_id m) m].
Proof.
  unfold transform_records, entries_for.
  rewrite transform_loop_app, valid_id_truthy.
  destruct (transform_loop pre ([], ∅)) as [st1 |] eqn:Hpre; simpl; [| done].
  destruct (transform_step st1 m) as [st2 |] eqn:Hstep; simpl; [| done].
  destruct (transform_loop post st2) as [st3 |] eqn:Hpost; simpl; [| done].
  intros [= <-] Hvalid Hfirst.
  destruct (transform_loop_spec _ _ _ Hpre) as (new1 & Hout1 & Hids1 & Hseen1 & _).
  destruct (transform_loop_spec _ _ _ Hpost) as (new3 & Hout3 & Hids3 & _ & _).
  simpl in Hout1, Hids1, Hseen1.
  assert (Hnew1 : record_id m ∉ record_id <$> new1).
  { rewrite Hids1. intros Hin. apply Hfirst.
    apply list_elem_of_filter in Hin as [_ Hin].
    apply first_occurrences_subset in Hin.
    by apply list_elem_of_filter in Hin as [_ Hin]. }
  assert (Hunseen : record_id m ∉ snd st1).
  { rewrite Hseen1. set_solver. }
  destruct (transform_step_inv _ _ _ Hstep)
    as [[_ [Hfalsy | Hdup]] | (_ & _ & ->)]; [congruence | done |].
  simpl in Hout3, Hids3.
  assert (Hnew3 : record_id m ∉ record_id <$> new3).
  { rewrite Hids3. rewrite list_elem_of_filter. set_solver. }
  rewrite Hout3, Hout1, !filter_app.
  rewrite (filter_none record_id _ new1 Hnew1).
  rewrite (filter_none record_id _ new3 Hnew3).
  rewrite filter_cons_True by apply record_id_clean.
  by rewrite filter_nil.
Qed.

(** A field that is falsy in the raw record takes its default. *)
Lemma clean_record_fields mid m :
  (py_truthy (dict_get m "author") = false →
   clean_record mid m !! "author" = Some (VStr "N/A"))
  ∧ (py_truthy (dict_get m "pipeline_tag") = false →
     clean_record mid m !! "pipeline_tag" = Some (VStr "N/A"))
  ∧ (py_truthy (dict_get m "tags") = false →
     clean_record mid m !! "tags" = Some (VList [])).
Proof.
  unfold clean_record, py_or.
  split_and!; intros ->; by simplify_map_eq.
Qed.

Lemma missing_falsy m k : missing m k → py_truthy (dict_get m k) = false.
Proof. unfold dict_get. by intros [-> | ->]. Qed.

Lemma present_falsy_falsy m k :
  present_falsy m k → py_truthy (dict_get m k) = false.
Proof. unfold dict_get. by intros (v & -> & _ & Hv). Qed.

(** The loop raises on no record whose [model_id] can be hashed. *)
Lemma transform_loop_total raw st :
  Forall (fun m => hashable_id (record_id m)) raw →
  ∃ st', transform_loop raw st = Ok st'.
Proof.
  intros Hraw. revert st.
  induction Hraw as [| m rest Hm _ IH]; intros st; simpl; [by eexists |].
  unfold transform_step. fold (record_id m).
  destruct (record_id m) as [| s | [| x l]] eqn:Hid; simpl in *;
    try done; try apply IH.
  - destruct (negb (String.eqb s "")); simpl; [| apply IH].
    case_bool_decide; apply IH.
Qed.

Lemma transform_records_total raw :
  Forall (fun m => hashable_id (record_id m)) raw →
  ∃ out, transform_records raw = Ok out.
Proof.
  intros Hraw. unfold transform_records.
  destruct (transform_loop_total raw ([], ∅) Hraw) as [st ->]. by eexists.
Qed.

(** What the task leaves in the hand-off store when it returns. *)
Lemma transform_model_data_inv ti s ti' :
  transform_model_data ti = (Ok s, ti') →
  ∃ out,
    transform_records (or_empty (xcom_pull ti "raw_models" extract_task_id))
    = Ok out
    ∧ ti' = xcom_push ti "transformed_models" out
    ∧ xcom_pull ti' "transformed_models" (task_id ti) = Some out.
Proof.
  unfold transform_model_data.
  destruct (transform_records _) as [out |]; [| done].
  intros [= <- <-]. exists out. split_and!; try done.
  unfold xcom_pull, xcom_push. simpl. by rewrite lookup_insert_eq.
Qed.

(** C1: whatever list of raw records the transformer is given, the list
    it produces and pushes holds no two records with the same
    [model_id]. *)
Theorem transform_output_unique ti s ti' :
  transform_model_data ti = (Ok s, ti') →
  ∃ out,
    xcom_pull ti' "transformed_models" (task_id ti) = Some out
    ∧ NoDup (record_id <$> out).
Proof.
  intros Hrun.
  destruct (transform_model_data_inv _ _ _ Hrun) as (out & Hout & _ & Hpull).
  exists out. split; [done |].
  destruct (transform_records_spec _ _ Hout) as [-> _].
  apply first_occurrences_NoDup.
Qed.

Lemma transform_output_unique_witness :
  ∃ out,
    xcom_pull
      (snd (transform_model_data
              (sample_run [sample_m1; sample_m2; sample_m1_again])))
      "transformed_models" transform_task_id = Some out
    ∧ NoDup (record_id <$> out).
Proof.
  apply (transform_output_unique
           (sample_run [sample_m1; sample_m2; sample_m1_again])
           "Transform completed successfully").
  vm_compute. reflexivity.
Defined.

(** C5: the [model_id]s of the output, in order, are the first
    occurrences of the valid [model_id]s of the input, in their order. *)
Theorem transform_keeps_first_occurrence_order raw out :
  transform_records raw = Ok out →
  record_id <$> out
  = first_occurrences (filter (fun v => valid_id v = true) (record_id <$> raw)).
Proof. intros Hout. by destruct (transform_records_spec _ _ Hout). Qed.

Lemma transform_keeps_first_occurrence_order_witness :
  record_id <$> [clean_record (VStr "m2") sample_m2;
                 clean_record (VStr "m1") sample_m1]
  = first_occurrences
      (filter (fun v => valid_id v = true)
         (record_id <$> [sample_m2; sample_anonymous; sample_m1;
                         sample_m2; sample_m1_again])).
Proof.
  apply (transform_keeps_first_occurrence_order
           [sample_m2; sample_anonymous; sample_m1; sample_m2;
            sample_m1_again]).
  vm_compute. reflexivity.
Defined.

(** The fields of the dictionary of lines 94-100, read against the raw
    record. *)
Lemma clean_record_takes mid m :
  dom (clean_record mid m) = record_keys
  ∧ clean_record mid m !! "model_id" = Some mid
  ∧ takes_field (clean_record mid m) m "author" (VStr "N/A")
  ∧ takes_field (clean_record mid m) m "pipeline_tag" (VStr "N/A")
  ∧ takes_field (clean_record mid m) m "tags" (VList [])
  ∧ clean_record mid m !! "last_modified"
    = Some (default VNone (m !! "last_modified")).
Proof.
  assert (Htakes : ∀ k d r,
            r !! k = Some (py_or (dict_get m k) d) → takes_field r m k d).
  { intros k d r Hr. unfold takes_field, filled. rewrite Hr.
    unfold py_or, dict_get. split.
    - intros v -> Hv. simpl. by rewrite Hv.
    - intros Hempty. destruct (m !! k) as [v |] eqn:Hk; simpl; [| done].
      destruct (py_truthy v) eqn:Hv; [| done].
      exfalso. apply Hempty. by exists v. }
  unfold clean_record. split_and!.
  - by rewrite !dom_insert_L, dom_empty_L.
  - by rewrite lookup_insert_eq.
  - apply Htakes. by simplify_map_eq.
  - apply Htakes. by simplify_map_eq.
  - apply Htakes. by simplify_map_eq.
  - unfold dict_get. by simplify_map_eq.
Qed.

(** C6: when two or more raw records share a valid [model_id], the
    output has exactly one entry for it; the entry has the five keys,
    and every field of it is read from the first of the records: its
    [author], [pipeline_tag] and [tags] where they are set, ["N/A"],
    ["N/A"] and [[]] where they are not, and its [last_modified]. The
    later records leave no trace, whatever they carry. *)
Theorem transform_first_duplicate_wins pre m between m' post out :
  transform_records (pre ++ m :: between ++ m' :: post) = Ok out →
  valid_id (record_id m) = true →
  record_id m' = record_id m →
  record_id m ∉ record_id <$> pre →
  ∃ r,
    entries_for (record_id m') out = [r]
    ∧ dom r = record_keys
    ∧ r !! "model_id" = Some (record_id m)
    ∧ takes_field r m "author" (VStr "N/A")
    ∧ takes_field r m "pipeline_tag" (VStr "N/A")
    ∧ takes_field r m "tags" (VList [])
    ∧ r !! "last_modified" = Some (default VNone (m !! "last_modified")).
Proof.
  intros Hout Hvalid Hsame Hfirst.
  exists (clean_record (record_id m) m). split.
  - rewrite Hsame. by eapply first_occurrence_emitted.
  - apply clean_record_takes.
Qed.

Lemma transform_first_duplicate_wins_witness :
  ∃ r,
    entries_for (record_id sample_m1_again)
      [clean_record (VStr "m2") sample_m2; clean_record (VStr "m1") sample_m1]
    = [r]
    ∧ dom r = record_keys
    ∧ r !! "model_id" = Some (record_id sample_m1)
    ∧ takes_field r sample_m1 "author" (VStr "N/A")
    ∧ takes_field r sample_m1 "pipeline_tag" (VStr "N/A")
    ∧ takes_field r sample_m1 "tags" (VList [])
    ∧ r !! "last_modified"
      = Some (default VNone (sample_m1 !! "last_modified")).
Proof.
  apply (transform_first_duplicate_wins
           [sample_m2] sample_m1 [sample_anonymous] sample_m1_again []).
  - reflexivity.
  - reflexivity.
  - reflexivity.
  - apply (bool_decide_unpack _). vm_compute. exact I.
Defined.

(** C7: a raw record with a valid [model_id] that is the first to carry
    it has one cleaned record in the output; there a missing [author] or
    [pipeline_tag] reads ["N/A"] and missing [tags] read [[]]. *)
Theorem transform_fills_missing_fields pre m post out :
  transform_records (pre ++ m :: post) = Ok out →
  valid_id (record_id m) = true →
  record_id m ∉ record_id <$> pre →
  ∃ r,
    entries_for (record_id m) out = [r]
    ∧ r !! "model_id" = Some (record_id m)
    ∧ (missing m "author" → r !! "author" = Some (VStr "N/A"))
    ∧ (missing m "pipeline_tag" → r !! "pipeline_tag" = Some (VStr "N/A"))
    ∧ (missing m "tags" → r !! "tags" = Some (VList [])).
Proof.
  intros Hout Hvalid Hfirst.
  exists (clean_record (record_id m) m).
  destruct (clean_record_fields (record_id m) m) as (Ha & Hp & Ht).
  split_and!.
  - by eapply first_occurrence_emitted.
  - unfold clean_record. by rewrite lookup_insert_eq.
  - intros Hm. by apply Ha, missing_falsy.
  - intros Hm. by apply Hp, missing_falsy.
  - intros Hm. by apply Ht, missing_falsy.
Qed.

Lemma transform_fills_missing_fields_witness :
  ∃ r,
    entries_for (record_id sample_m1)
      [clean_record (VStr "m1") sample_m1] = [r]
    ∧ r !! "model_id" = Some (record_id sample_m1)
    ∧ (missing sample_m1 "author" → r !! "author" = Some (VStr "N/A"))
    ∧ (missing sample_m1 "pipeline_tag" →
       r !! "pipeline_tag" = Some (VStr "N/A"))
    ∧ (missing sample_m1 "tags" → r !! "tags" = Some (VList [])).
Proof.
  apply (transform_fills_missing_fields [] sample_m1 [sample_m1_again]).
  - vm_compute. reflexivity.
  - reflexivity.
  - apply (bool_decide_unpack _). vm_compute. exact I.
Defined.

(** C10: in the cleaned record of a raw record with a valid [model_id],
    an [author] or [pipeline_tag] that is present but falsy, such as the
    empty string, reads ["N/A"] too, and present but falsy [tags] read
    [[]]. *)
Theorem transform_fills_falsy_fields pre m post out :
  transform_records (pre ++ m :: post) = Ok out →
  valid_id (record_id m) = true →
  record_id m ∉ record_id <$> pre →
  ∃ r,
    entries_for (record_id m) out = [r]
    ∧ (present_falsy m "author" → r !! "author" = Some (VStr "N/A"))
    ∧ (present_falsy m "pipeline_tag" →
       r !! "pipeline_tag" = Some (VStr "N/A"))
    ∧ (present_falsy m "tags" → r !! "tags" = Some (VList [])).
Proof.
  intros Hout Hvalid Hfirst.
  exists (clean_record (record_id m) m).
  destruct (clean_record_fields (record_id m) m) as (Ha & Hp & Ht).
  split_and!.
  - by eapply first_occurrence_emitted.
  - intros Hm. by apply Ha, present_falsy_falsy.
  - intros Hm. by apply Hp, present_falsy_falsy.
  - intros Hm. by apply Ht, present_falsy_falsy.
Qed.

Lemma transform_fills_falsy_fields_witness :
  present_falsy sample_m2 "author"
  ∧ ∃ r,
      entries_for (record_id sample_m2)
        [clean_record (VStr "m1") sample_m1;
         clean_record (VStr "m2") sample_m2] = [r]
      ∧ (present_falsy sample_m2 "author" →
         r !! "author" = Some (VStr "N/A"))
      ∧ (present_falsy sample_m2 "pipeline_tag" →
         r !! "pipeline_tag" = Some (VStr "N/A"))
      ∧ (present_falsy sample_m2 "tags" → r !! "tags" = Some (VList [])).
Proof.
  split.
  - exists (VStr ""). split_and!; [vm_compute; reflexivity | discriminate | reflexivity].
  - apply (transform_fills_falsy_fields [sample_m1] sample_m2 []).
    + vm_compute. reflexivity.
    + reflexivity.
    + apply (bool_decide_unpack _). vm_compute. exact I.
Defined.

(** C9: a raw record whose [model_id] is absent or empty is skipped: the
    transformer yields what it yields without that record, exception or
    not; and a hand-off store without [raw_models] is transformed as the
    empty list. *)
Theorem transform_skips_invalid_and_missing :
  (∀ pre m post,
     valid_id (record_id m) = false →
     transform_records (pre ++ m :: post) = transform_records (pre ++ post))
  ∧ (∀ ti,
       xcom_pull ti "raw_models" extract_task_id = None →
       transform_model_data ti
       = (Ok "Transform completed successfully",
          xcom_push ti "transformed_models" [])).
Proof.
  split.
  - intros pre m post Hinvalid. unfold transform_records.
    rewrite !transform_loop_app.
    destruct (transform_loop pre ([], ∅)) as [st |]; simpl; [| done].
    rewrite transform_step_skip by (by rewrite <- valid_id_truthy). done.
  - intros ti Hpull. unfold transform_model_data. by rewrite Hpull.
Qed.

Lemma transform_skips_invalid_and_missing_witness :
  transform_records ([sample_m1] ++ sample_anonymous :: [sample_m2])
  = transform_records ([sample_m1] ++ [sample_m2])
  ∧ transform_model_data sample_fresh_run
    = (Ok "Transform completed successfully",
       xcom_push sample_fresh_run "transformed_models" []).
Proof.
  destruct transform_skips_invalid_and_missing as [Hskip Hmissing].
  split.
  - apply (Hskip [sample_m1] sample_anonymous [sample_m2]). reflexivity.
  - apply (Hmissing sample_fresh_run). reflexivity.
Defined.

End TransformFacts.

(** * Properties of the extractor *)

Section ExtractFacts.

Import Extract.

Variable list_models : request -> listing.
Variable py_str : value -> string.

(** The comprehension raises as soon as one item cannot be mapped or
    the iterable raises. *)
Lemma comprehension_raises items stop :
  (∃ m e, m ∈ items ∧ raw_record py_str m = Raise e) ∨ (∃ e, stop = Some e) →
  ∃ e', comprehension py_str items stop = Raise e'.
Proof.
  induction items as [| m0 rest IH]; intros Hsrc; simpl.
  - destruct Hsrc as [(m & e & Hm & _) | [e ->]]; [| by eexists].
    by apply elem_of_nil in Hm.
  - destruct (raw_record py_str m0) as [r |] eqn:Hr; simpl; [| by eexists].
    destruct IH as [e' ->]; [| by eexists].
    destruct Hsrc as [(m & e & Hm & Hraise) | Hstop]; [| by right].
    left. apply elem_of_cons in Hm as [-> | Hm]; [congruence |].
    by exists m, e.
Qed.

(** The [except] branch. *)
Lemma extract_model_data_raise ti e :
  fetch_raw_models list_models py_str = Raise e →
  extract_model_data list_models py_str ti
  = (Ok "Extract failed", xcom_push ti "raw_models" []).
Proof. unfold extract_model_data. by intros ->. Qed.

(** C3: whichever exception [e] the listing call, the iteration over its
    answer or the mapping of one of its items raises, the extractor
    raises nothing: it returns the status ["Extract failed"] and leaves
    the empty list under [raw_models]. *)
Theorem extract_swallows_exceptions ti e :
  (list_models hub_request = ListingRaises e
   ∨ ∃ items stop,
       list_models hub_request = Listing items stop
       ∧ (stop = Some e ∨ ∃ m, m ∈ items ∧ raw_record py_str m = Raise e)) →
  extract_model_data list_models py_str ti
  = (Ok "Extract failed", xcom_push ti "raw_models" [])
  ∧ xcom_pull (snd (extract_model_data list_models py_str ti))
      "raw_models" (task_id ti) = Some [].
Proof.
  intros Hsrc.
  assert (Hraise : ∃ e', fetch_raw_models list_models py_str = Raise e').
  { unfold fetch_raw_models.
    destruct Hsrc as [-> | (items & stop & -> & Hsrc)]; [by eexists |].
    apply comprehension_raises.
    destruct Hsrc as [-> | (m & Hm & Hr)]; [right | left]; eauto. }
  destruct Hraise as [e' Hraise].
  rewrite (extract_model_data_raise ti e' Hraise). split; [done |].
  unfold xcom_pull, xcom_push. simpl. by rewrite lookup_insert_eq.
Qed.

End ExtractFacts.

Lemma extract_swallows_exceptions_witness :
  Extract.extract_model_data sample_hub sample_str sample_extract_run
  = (Ok "Extract failed", xcom_push sample_extract_run "raw_models" [])
  ∧ xcom_pull
      (snd (Extract.extract_model_data sample_hub sample_str
              sample_extract_run))
      "raw_models" (task_id sample_extract_run) = Some [].
Proof.
  apply (extract_swallows_exceptions sample_hub sample_str sample_extract_run
           (AttributeError "lastModified")).
  right. exists [sample_model_info; sample_model_info_renamed], None.
  split; [reflexivity |]. right. exists sample_model_info_renamed.
  split; [| vm_compute; reflexivity].
  apply elem_of_cons. right. apply elem_of_cons. left. reflexivity.
Defined.

(** A listing that can be mapped is pushed as it is. *)
Example extract_success :
  Extract.extract_model_data sample_hub_small sample_str sample_extract_run
  = (Ok "Extract completed successfully",
     xcom_push sample_extract_run "raw_models"
       [<["model_id" := VStr "m1"]>
        (<["author" := VStr "alice"]>
        (<["pipeline_tag" := VNone]>
        (<["tags" := VList ["nlp"]]>
        (<["last_modified" := VStr "2024-01-01 00:00:00+00:00"]> ∅))))]).
Proof. vm_compute. reflexivity. Qed.

(** * Properties of the loader *)

Section LoadFacts.

Import Load.

(** ** The upsert on the table *)

Lemma upsert_keys p rows :
  model_id <$> upsert p rows
  = if decide (model_id p ∈ model_id <$> rows)
    then model_id <$> rows
    else (model_id <$> rows) ++ [model_id p].
Proof.
  induction rows as [| r rest IH].
  - rewrite decide_False; [done | apply not_elem_of_nil].
  - cbn [upsert]. rewrite !fmap_cons.
    destruct (decide (model_id r = model_id p)) as [Heq | Hne].
    + rewrite decide_True; [done | rewrite Heq; apply elem_of_cons; by left].
    + rewrite fmap_cons, IH.
      destruct (decide (model_id p ∈ model_id <$> rest)) as [Hin | Hout].
      * rewrite decide_True; [done | apply elem_of_cons; by right].
      * rewrite decide_False; [done |].
        rewrite elem_of_cons. intros [? | ?]; congruence.
Qed.

Lemma upsert_NoDup p rows :
  NoDup (model_id <$> rows) → NoDup (model_id <$> upsert p rows).
Proof.
  intros Hrows. rewrite upsert_keys. case_decide; [done |].
  apply NoDup_app. split_and!; [done | | apply NoDup_singleton].
  intros k Hk Hk'. apply list_elem_of_singleton in Hk'. by subst.
Qed.

Lemma upsert_member p rows : model_id p ∈ model_id <$> upsert p rows.
Proof.
  rewrite upsert_keys. case_decide; [done |].
  apply elem_of_app. right. by apply list_elem_of_singleton.
Qed.

Lemma upsert_keeps k p rows :
  k ∈ model_id <$> rows → k ∈ model_id <$> upsert p rows.
Proof.
  intros Hk. rewrite upsert_keys. case_decide; [done |].
  apply elem_of_app. by left.
Qed.

(** After an upsert the key has one row, the incoming one. *)
Lemma rows_with_upsert p rows :
  NoDup (model_id <$> rows) → rows_with (model_id p) (upsert p rows) = [p].
Proof.
  unfold rows_with. induction rows as [| r rest IH]; simpl; intros Hrows.
  - by rewrite filter_cons_True, filter_nil.
  - apply NoDup_cons in Hrows as [Hr Hrest].
    destruct (decide (model_id r = model_id p)) as [Heq | Hne].
    + rewrite filter_cons_True by done.
      rewrite (filter_none model_id (model_id p) rest) by (by rewrite <- Heq).
      rewrite Heq. by destruct p.
    + rewrite filter_cons_False by done. by apply IH.
Qed.

(** The rows of the other keys stay as they are. *)
Lemma rows_with_upsert_other k p rows :
  k ≠ model_id p → rows_with k (upsert p rows) = rows_with k rows.
Proof.
  unfold rows_with. intros Hk. induction rows as [| r rest IH]; simpl.
  - by rewrite filter_cons_False, filter_nil by congruence.
  - destruct (decide (model_id r = model_id p)) as [Heq | Hne].
    + rewrite !filter_cons_False; [done | congruence | simpl; congruence].
    + by rewrite !filter_cons, IH.
Qed.

(** ** A sequence of upserts *)

Lemma upsert_all_NoDup ps rows :
  NoDup (model_id <$> rows) → NoDup (model_id <$> upsert_all rows ps).
Proof.
  revert rows. induction ps as [| p ps IH]; intros rows Hrows; simpl; [done |].
  by apply IH, upsert_NoDup.
Qed.

Lemma upsert_all_keeps k ps rows :
  k ∈ model_id <$> rows → k ∈ model_id <$> upsert_all rows ps.
Proof.
  revert rows. induction ps as [| p ps IH]; intros rows Hk; simpl; [done |].
  by apply IH, upsert_keeps.
Qed.

Lemma upsert_all_member p ps rows :
  p ∈ ps → model_id p ∈ model_id <$> upsert_all rows ps.
Proof.
  revert rows. induction ps as [| q ps IH]; intros rows Hp; simpl.
  - by apply elem_of_nil in Hp.
  - apply elem_of_cons in Hp as [-> | Hp]; [| by apply IH].
    apply upsert_all_keeps, upsert_member.
Qed.

Lemma rows_with_upsert_all_other k ps rows :
  k ∉ model_id <$> ps → rows_with k (upsert_all rows ps) = rows_with k rows.
Proof.
  revert rows. induction ps as [| p ps IH]; intros rows Hk; simpl; [done |].
  rewrite fmap_cons, not_elem_of_cons in Hk. destruct Hk as [Hp Hps].
  by rewrite IH, rows_with_upsert_other.
Qed.

(** With distinct keys every upserted row is there at the end, alone
    under its key. *)
Lemma rows_with_upsert_all p ps rows :
  NoDup (model_id <$> rows) → NoDup (model_id <$> ps) → p ∈ ps →
  rows_with (model_id p) (upsert_all rows ps) = [p].
Proof.
  revert rows. induction ps as [| q ps IH]; intros rows Hrows Hps Hp; simpl.
  - by apply elem_of_nil in Hp.
  - rewrite fmap_cons in Hps. apply NoDup_cons in Hps as [Hq Hps].
    apply elem_of_cons in Hp as [-> | Hp].
    + rewrite rows_with_upsert_all_other by done. by apply rows_with_upsert.
    + apply IH; [by apply upsert_NoDup | done | done].
Qed.

Lemma rows_with_one k rows :
  NoDup (model_id <$> rows) → k ∈ model_id <$> rows →
  ∃ r, rows_with k rows = [r].
Proof.
  unfold rows_with. induction rows as [| r rest IH]; simpl; intros Hrows Hk.
  - by apply elem_of_nil in Hk.
  - apply NoDup_cons in Hrows as [Hr Hrest].
    destruct (decide (model_id r = k)) as [Heq | Hne].
    + exists r. rewrite filter_cons_True by done.
      by rewrite (filter_none model_id k rest) by (by rewrite <- Heq).
    + rewrite filter_cons_False by done. apply IH; [done |].
      apply elem_of_cons in Hk as [? | ?]; [congruence | done].
Qed.

(** ** One statement *)

Lemma execute_create t : execute CreateTable t = Some (Some (created t)).
Proof. by destruct t. Qed.

Lemma hook_run_fault q db fs :
  faults db = true :: fs →
  hook_run q db
  = (Raise (DatabaseError "statement failed"),
     {| ai_models := ai_models db; journal := journal db ++ [q];
        faults := fs |}).
Proof. unfold hook_run. by intros ->. Qed.

Lemma hook_run_clear q db t fs :
  faults db = false :: fs →
  execute q (ai_models db) = Some t →
  hook_run q db
  = (Ok (), {| ai_models := t; journal := journal db ++ [q]; faults := fs |}).
Proof. unfold hook_run. by intros -> ->. Qed.

Lemma hook_run_ok_inv q db u db' :
  hook_run q db = (Ok u, db') →
  ∃ t, execute q (ai_models db) = Some t
       ∧ db' = {| ai_models := t; journal := journal db ++ [q];
                  faults := tail (faults db) |}.
Proof.
  unfold hook_run.
  destruct (faults db) as [| [|] fs]; try done;
    destruct (execute q (ai_models db)) as [t |]; try done;
    intros [= <- <-]; by exists t.
Qed.

(** ** The loop *)

Lemma load_loop_app l1 l2 db :
  load_loop (l1 ++ l2) db
  = match load_loop l1 db with
    | (Ok _, db') => load_loop l2 db'
    | (Raise e, db') => (Raise e, db')
    end.
Proof.
  revert db. induction l1 as [| model l1 IH]; intros db; simpl; [done |].
  destruct (parameters_of model) as [p |]; [| done].
  destruct (hook_run (Insert p) db) as [[u | e] db']; [apply IH | done].
Qed.

(** While no fault comes up the loop upserts every record in turn. *)
Lemma load_loop_clear rs ps db rows fs :
  bound rs ps →
  ai_models db = Some rows →
  faults db = replicate (length rs) false ++ fs →
  load_loop rs db
  = (Ok (), {| ai_models := Some (upsert_all rows ps);
               journal := journal db ++ (Insert <$> ps);
               faults := fs |}).
Proof.
  intros Hbound. revert db rows.
  induction Hbound as [| model p rs ps Hp _ IH]; intros db rows Hrows Hfaults;
    simpl in *.
  - rewrite app_nil_r. destruct db; simpl in *. by subst.
  - rewrite Hp.
    rewrite (hook_run_clear (Insert p) db (Some (upsert p rows)) _ Hfaults)
      by (by rewrite Hrows).
    rewrite (IH _ (upsert p rows)) by done. simpl.
    by rewrite <- app_assoc.
Qed.

Lemma load_loop_ok_inv rs db u db' rows :
  load_loop rs db = (Ok u, db') →
  ai_models db = Some rows →
  ∃ ps, bound rs ps ∧ ai_models db' = Some (upsert_all rows ps).
Proof.
  revert db rows. induction rs as [| model rs IH]; intros db rows; simpl.
  - intros [= <- <-] Hrows. exists []. split; [constructor | done].
  - destruct (parameters_of model) as [p |] eqn:Hp; [| done].
    destruct (hook_run (Insert p) db) as [[u' | e] db1] eqn:Hrun; [| done].
    intros Hloop Hrows.
    destruct (hook_run_ok_inv _ _ _ _ Hrun) as (t & Hexec & ->).
    rewrite Hrows in Hexec. simpl in Hexec. injection Hexec as <-.
    destruct (IH _ (upsert p rows) Hloop eq_refl) as (ps & Hbound & Hfinal).
    exists (p :: ps). split; [by constructor | done].
Qed.

(** ** The task *)

Lemma load_to_postgres_nonempty ti db rs :
  xcom_pull ti "transformed_models" transform_task_id = Some rs →
  rs ≠ [] →
  load_to_postgres ti db
  = match hook_run CreateTable db with
    | (Raise e, db1) => (Raise e, db1)
    | (Ok _, db1) =>
        match load_loop rs db1 with
        | (Ok _, db2) =>
            (Ok ("loaded " +:+ pretty (length rs) +:+ " models"), db2)
        | (Raise e, db2) => (Raise e, db2)
        end
    end.
Proof. unfold load_to_postgres. intros -> Hrs. by destruct rs. Qed.

Lemma load_to_postgres_ok_inv ti db s db' rs :
  xcom_pull ti "transformed_models" transform_task_id = Some rs →
  load_to_postgres ti db = (Ok s, db') →
  (rs = [] ∧ db' = db)
  ∨ ∃ ps, bound rs ps
          ∧ ai_models db' = Some (upsert_all (created (ai_models db)) ps).
Proof.
  intros Hpull. destruct (decide (rs = [])) as [-> | Hrs].
  - unfold load_to_postgres. rewrite Hpull. intros [= <- <-]. by left.
  - rewrite (load_to_postgres_nonempty _ _ _ Hpull Hrs).
    destruct (hook_run CreateTable db) as [[u | e] db1] eqn:Hcreate; [| done].
    destruct (load_loop rs db1) as [[u' | e] db2] eqn:Hloop; [| done].
    intros [= <- <-]. right.
    destruct (hook_run_ok_inv _ _ _ _ Hcreate) as (t & Hexec & ->).
    rewrite execute_create in Hexec. injection Hexec as <-.
    by eapply load_loop_ok_inv.
Qed.

Lemma parameters_of_id model p :
  parameters_of model = Ok p → model_id p = record_id model.
Proof.
  unfold parameters_of, dict_item, record_id, dict_get.
  destruct (model !! "model_id"); simpl; [| done].
  repeat (match goal with
          | |- context [model !! ?k] => destruct (model !! k); simpl; [| done]
          end).
  by intros [= <-].
Qed.

Lemma bound_ids rs ps : bound rs ps → model_id <$> ps = record_id <$> rs.
Proof.
  induction 1 as [| model p rs ps Hp _ IH]; [done |].
  by rewrite !fmap_cons, (parameters_of_id _ _ Hp), IH.
Qed.

Lemma bound_member rs ps model :
  bound rs ps → model ∈ rs → ∃ p, p ∈ ps ∧ parameters_of model = Ok p.
Proof.
  induction 1 as [| model0 p rs ps Hp _ IH]; intros Hin.
  - by apply elem_of_nil in Hin.
  - apply elem_of_cons in Hin as [-> | Hin].
    + exists p. split; [by left | done].
    + destruct (IH Hin) as (q & Hq & Hparams).
      exists q. split; [by right | done].
Qed.

Lemma created_NoDup db : pk_unique db → NoDup (model_id <$> created (ai_models db)).
Proof. unfold pk_unique. destruct (ai_models db); simpl; [done | constructor]. Qed.

(** A load that returns keeps the primary key unique. *)
Lemma load_keeps_pk ti db s db' rs :
  xcom_pull ti "transformed_models" transform_task_id = Some rs →
  pk_unique db →
  load_to_postgres ti db = (Ok s, db') →
  pk_unique db'.
Proof.
  intros Hpull Hpk Hload.
  destruct (load_to_postgres_ok_inv _ _ _ _ _ Hpull Hload)
    as [[_ ->] | (ps & _ & Hfinal)]; [done |].
  unfold pk_unique. rewrite Hfinal. by apply upsert_all_NoDup, created_NoDup.
Qed.

(** After a load that returns, every record of the list has a row. *)
Lemma load_rows_present ti db s db' rs model :
  xcom_pull ti "transformed_models" transform_task_id = Some rs →
  load_to_postgres ti db = (Ok s, db') →
  model ∈ rs →
  ∃ p rows, parameters_of model = Ok p ∧ ai_models db' = Some rows
            ∧ model_id p ∈ model_id <$> rows.
Proof.
  intros Hpull Hload Hin.
  destruct (load_to_postgres_ok_inv _ _ _ _ _ Hpull Hload)
    as [[-> _] | (ps & Hbound & Hfinal)]; [by apply elem_of_nil in Hin |].
  destruct (bound_member _ _ _ Hbound Hin) as (p & Hp & Hparams).
  exists p, (upsert_all (created (ai_models db)) ps).
  split_and!; [done | done | by apply upsert_all_member].
Qed.

(** After a load of records with distinct ids that returns, every
    record of the list has one row, with its own columns. *)
Lemma load_rows ti db s db' rs model :
  xcom_pull ti "transformed_models" transform_task_id = Some rs →
  NoDup (record_id <$> rs) →
  pk_unique db →
  load_to_postgres ti db = (Ok s, db') →
  model ∈ rs →
  ∃ p rows, parameters_of model = Ok p ∧ ai_models db' = Some rows
            ∧ rows_with (model_id p) rows = [p].
Proof.
  intros Hpull Hids Hpk Hload Hin.
  destruct (load_to_postgres_ok_inv _ _ _ _ _ Hpull Hload)
    as [[-> _] | (ps & Hbound & Hfinal)]; [by apply elem_of_nil in Hin |].
  destruct (bound_member _ _ _ Hbound Hin) as (p & Hp & Hparams).
  exists p, (upsert_all (created (ai_models db)) ps).
  split_and!; [done | done |].
  apply rows_with_upsert_all; [by apply created_NoDup | | done].
  by rewrite (bound_ids _ _ Hbound).
Qed.

(** C8: when [transformed_models] is absent or empty the loader returns
    ["No data to load"] and the database is as it was: no statement was
    received, so no table was created and no row upserted. *)
Theorem load_nothing_to_load ti db :
  xcom_pull ti "transformed_models" transform_task_id = None
  ∨ xcom_pull ti "transformed_models" transform_task_id = Some [] →
  load_to_postgres ti db = (Ok "No data to load", db).
Proof. unfold load_to_postgres. by intros [-> | ->]. Qed.

Lemma load_nothing_to_load_witness :
  load_to_postgres (sample_load_run []) (sample_db [true])
  = (Ok "No data to load", sample_db [true]).
Proof.
  apply (load_nothing_to_load (sample_load_run []) (sample_db [true])).
  right. reflexivity.
Defined.

(** C4: when the statements up to the upsert of record [i] go through
    and that upsert fails, the loader raises the database error; the
    table holds the upserts of the records before [i], the journal
    shows the [CREATE TABLE] and one [INSERT] per record up to [i], in
    the order of the list, and none for the records after [i]. *)
Theorem load_aborts_at_failure ti db pre model post ps p fs :
  xcom_pull ti "transformed_models" transform_task_id
  = Some (pre ++ model :: post) →
  bound pre ps →
  parameters_of model = Ok p →
  faults db = replicate (S (length pre)) false ++ true :: fs →
  load_to_postgres ti db
  = (Raise (DatabaseError "statement failed"),
     {| ai_models := Some (upsert_all (created (ai_models db)) ps);
        journal := journal db ++ CreateTable :: (Insert <$> ps) ++ [Insert p];
        faults := fs |}).
Proof.
  intros Hpull Hbound Hp Hfaults.
  rewrite (load_to_postgres_nonempty _ _ _ Hpull) by (by destruct pre).
  simpl in Hfaults.
  rewrite (hook_run_clear CreateTable db _ _ Hfaults (execute_create _)).
  rewrite load_loop_app.
  rewrite (load_loop_clear pre ps _ (created (ai_models db)) (true :: fs))
    by done.
  cbn [load_loop]. rewrite Hp.
  rewrite (hook_run_fault (Insert p) _ fs) by done. cbn [ai_models journal].
  by rewrite <- !app_assoc.
Qed.

Lemma load_aborts_at_failure_witness :
  load_to_postgres
    (sample_load_run [sample_clean_m1; sample_clean_m2; sample_clean_m1_updated])
    (sample_db [false; false; true; false])
  = (Raise (DatabaseError "statement failed"),
     {| ai_models :=
          Some (upsert_all []
                  [{| model_id := VStr "m1"; author := VStr "N/A";
                      pipeline_tag := VStr "text-gen"; tags := VList [];
                      last_modified := VStr "2024-01-01" |}]);
        journal :=
          [] ++ CreateTable
          :: (Insert <$> [{| model_id := VStr "m1"; author := VStr "N/A";
                             pipeline_tag := VStr "text-gen"; tags := VList [];
                             last_modified := VStr "2024-01-01" |}])
          ++ [Insert {| model_id := VStr "m2"; author := VStr "N/A";
                        pipeline_tag := VStr "N/A"; tags := VList [];
                        last_modified := VStr "2024-03-03" |}];
        faults := [false] |}).
Proof.
  apply (load_aborts_at_failure
           (sample_load_run
              [sample_clean_m1; sample_clean_m2; sample_clean_m1_updated])
           (sample_db [false; false; true; false])
           [sample_clean_m1] sample_clean_m2 [sample_clean_m1_updated]).
  - reflexivity.
  - constructor; [vm_compute; reflexivity | constructor].
  - vm_compute. reflexivity.
  - reflexivity.
Defined.

Lemma parameters_of_columns model p :
  parameters_of model = Ok p → columns_of model p.
Proof.
  unfold parameters_of, dict_item, columns_of.
  destruct (model !! "model_id"); simpl; [| done].
  destruct (model !! "author"); simpl; [| done].
  destruct (model !! "pipeline_tag"); simpl; [| done].
  destruct (model !! "tags"); simpl; [| done].
  destruct (model !! "last_modified"); simpl; [| done].
  by intros [= <-].
Qed.

(** What the database holds is what it makes of the bound values, such
    as the cast of [last_modified] to [TIMESTAMP]: a function [stored]
    of the row that keeps the key. Selecting a key and upserting
    commute with it, so the table the database holds is the image of
    the table of bound values. *)
Lemma rows_with_stored (stored : row → row) k rows :
  (∀ q, model_id (stored q) = model_id q) →
  rows_with k (stored <$> rows) = stored <$> rows_with k rows.
Proof.
  intros Hkey. unfold rows_with.
  induction rows as [| r rest IH]; [done |].
  rewrite fmap_cons, !filter_cons, Hkey, IH.
  by destruct (decide (model_id r = k)).
Qed.

Lemma upsert_stored (stored : row → row) p rows :
  (∀ q, model_id (stored q) = model_id q) →
  upsert (stored p) (stored <$> rows) = stored <$> upsert p rows.
Proof.
  intros Hkey. induction rows as [| r rest IH]; [done |].
  cbn [upsert]. rewrite fmap_cons. cbn [upsert]. rewrite !Hkey.
  destruct (decide (model_id r = model_id p)) as [Heq | Hne].
  - rewrite fmap_cons. f_equal.
    replace {| model_id := model_id r; author := author p;
               pipeline_tag := pipeline_tag p; tags := tags p;
               last_modified := last_modified p |} with p
      by (rewrite Heq; by destruct p).
    rewrite Heq, <- (Hkey p). by destruct (stored p).
  - by rewrite fmap_cons, IH.
Qed.

(** C2: loading one list of cleaned records twice in a row leaves, for
    every record of the list, exactly one row under its [model_id],
    and the row holds the [author], [pipeline_tag], [tags] and
    [last_modified] of that record; loading a list with an updated
    record for a [model_id] that an earlier load stored leaves one row
    under that [model_id], where there was one, and it holds the four
    columns of the updated record. The rows are those of the bound
    values, and of what the database stores for them under any cast
    [stored] that keeps the key. *)
Theorem load_twice_one_row_each :
  (∀ ti db s1 db1 s2 db2 rs model stored,
     xcom_pull ti "transformed_models" transform_task_id = Some rs →
     NoDup (record_id <$> rs) →
     pk_unique db →
     load_to_postgres ti db = (Ok s1, db1) →
     load_to_postgres ti db1 = (Ok s2, db2) →
     model ∈ rs →
     (∀ q, model_id (stored q) = model_id q) →
     ∃ p rows,
       columns_of model p
       ∧ ai_models db2 = Some rows
       ∧ rows_with (model_id p) rows = [p]
       ∧ rows_with (model_id p) (stored <$> rows) = [stored p])
  ∧ (∀ ti ti' db s1 db1 s2 db2 rs rs' model model' stored,
       xcom_pull ti "transformed_models" transform_task_id = Some rs →
       xcom_pull ti' "transformed_models" transform_task_id = Some rs' →
       NoDup (record_id <$> rs') →
       pk_unique db →
       load_to_postgres ti db = (Ok s1, db1) →
       load_to_postgres ti' db1 = (Ok s2, db2) →
       model ∈ rs → model' ∈ rs' →
       record_id model' = record_id model →
       (∀ q, model_id (stored q) = model_id q) →
       ∃ p' old rows1 rows2,
         columns_of model' p'
         ∧ ai_models db1 = Some rows1
         ∧ rows_with (model_id p') rows1 = [old]
         ∧ ai_models db2 = Some rows2
         ∧ rows_with (model_id p') rows2 = [p']
         ∧ rows_with (model_id p') (stored <$> rows2) = [stored p']).
Proof.
  split.
  - intros ti db s1 db1 s2 db2 rs model stored
      Hpull Hids Hpk Hload1 Hload2 Hin Hkey.
    assert (Hpk1 : pk_unique db1)
      by exact (load_keeps_pk _ _ _ _ _ Hpull Hpk Hload1).
    destruct (load_rows _ _ _ _ _ _ Hpull Hids Hpk1 Hload2 Hin)
      as (p & rows & Hp & Hrows & Hone).
    exists p, rows. split_and!; try done.
    + by apply parameters_of_columns.
    + by rewrite (rows_with_stored stored _ _ Hkey), Hone.
  - intros ti ti' db s1 db1 s2 db2 rs rs' model model' stored
      Hpull Hpull' Hids Hpk Hload1 Hload2 Hin Hin' Hsame Hkey.
    assert (Hpk1 : pk_unique db1)
      by exact (load_keeps_pk _ _ _ _ _ Hpull Hpk Hload1).
    destruct (load_rows_present _ _ _ _ _ _ Hpull Hload1 Hin)
      as (p & rows1 & Hp & Hrows1 & Hpresent).
    destruct (load_rows _ _ _ _ _ _ Hpull' Hids Hpk1 Hload2 Hin')
      as (p' & rows2 & Hp' & Hrows2 & Hone).
    assert (Hsamekey : model_id p' = model_id p).
    { by rewrite (parameters_of_id _ _ Hp), (parameters_of_id _ _ Hp'). }
    unfold pk_unique in Hpk1. rewrite Hrows1 in Hpk1.
    destruct (rows_with_one (model_id p') rows1 Hpk1) as [old Hold];
      [by rewrite Hsamekey |].
    exists p', old, rows1, rows2. split_and!; try done.
    + by apply parameters_of_columns.
    + by rewrite (rows_with_stored stored _ _ Hkey), Hone.
Qed.

Lemma load_twice_one_row_each_witness :
  (∃ p rows,
     columns_of sample_clean_m2 p
     ∧ ai_models sample_loaded_twice = Some rows
     ∧ rows_with (model_id p) rows = [p]
     ∧ rows_with (model_id p) (sample_stored <$> rows) = [sample_stored p])
  ∧ (∃ p' old rows1 rows2,
       columns_of sample_clean_m1_updated p'
       ∧ ai_models sample_loaded_once = Some rows1
       ∧ rows_with (model_id p') rows1 = [old]
       ∧ ai_models sample_loaded_update = Some rows2
       ∧ rows_with (model_id p') rows2 = [p']
       ∧ rows_with (model_id p') (sample_stored <$> rows2)
         = [sample_stored p']).
Proof.
  destruct load_twice_one_row_each as [Htwice Hupdate].
  split.
  - apply (Htwice (sample_load_run [sample_clean_m1; sample_clean_m2])
             (sample_db []) "loaded 2 models" sample_loaded_once
             "loaded 2 models" sample_loaded_twice
             [sample_clean_m1; sample_clean_m2] sample_clean_m2
             sample_stored).
    + reflexivity.
    + apply (bool_decide_unpack _). vm_compute. exact I.
    + exact I.
    + reflexivity.
    + reflexivity.
    + apply elem_of_cons. right. apply elem_of_cons. left. reflexivity.
    + intros q. reflexivity.
  - apply (Hupdate (sample_load_run [sample_clean_m1; sample_clean_m2])
             (sample_load_run [sample_clean_m1_updated])
             (sample_db []) "loaded 2 models" sample_loaded_once
             "loaded 1 models" sample_loaded_update
             [sample_clean_m1; sample_clean_m2] [sample_clean_m1_updated]
             sample_clean_m1 sample_clean_m1_updated sample_stored).
    + reflexivity.
    + reflexivity.
    + apply (bool_decide_unpack _). vm_compute. exact I.
    + exact I.
    + reflexivity.
    + reflexivity.
    + apply elem_of_cons. left. reflexivity.
    + apply elem_of_cons. left. reflexivity.
    + reflexivity.
    + intros q. reflexivity.
Defined.

(** A first load and the load of an update, run. *)
Example load_then_update :
  load_to_postgres (sample_load_run [sample_clean_m1_updated])
    sample_loaded_once
  = (Ok "loaded 1 models",
     {| ai_models :=
          Some [{| model_id := VStr "m1"; author := VStr "alice";
                   pipeline_tag := VStr "text-gen"; tags := VList ["nlp"];
                   last_modified := VStr "2024-02-02" |};
                {| model_id := VStr "m2"; author := VStr "N/A";
                   pipeline_tag := VStr "N/A"; tags := VList [];
                   last_modified := VStr "2024-03-03" |}];
        journal :=
          [CreateTable;
           Insert {| model_id := VStr "m1"; author := VStr "N/A";
                     pipeline_tag := VStr "text-gen"; tags := VList [];
                     last_modified := VStr "2024-01-01" |};
           Insert {| model_id := VStr "m2"; author := VStr "N/A";
                     pipeline_tag := VStr "N/A"; tags := VList [];
                     last_modified := VStr "2024-03-03" |};
           CreateTable;
           Insert {| model_id := VStr "m1"; author := VStr "alice";
                     pipeline_tag := VStr "text-gen"; tags := VList ["nlp"];
                     last_modified := VStr "2024-02-02" |}];
        faults := [] |}).
Proof. vm_compute. reflexivity. Qed.

End LoadFacts.

(** * Further properties of the extractor *)

Section ExtractShape.

Import Extract.

Variable list_models : request -> listing.
Variable py_str : value -> string.

Lemma attr_or_inv m a d v :
  attr_or m a d = Ok v →
  ∃ c, m !! a = Some c ∧ v = (if py_truthy c then c else d).
Proof.
  unfold attr_or, getattr. destruct (m !! a) as [c |]; simpl; [| done].
  destruct (py_truthy c) eqn:Ht; intros [= <-]; exists c; by rewrite Ht.
Qed.

Lemma attr_or_present m a d c :
  m !! a = Some c → attr_or m a d = Ok (if py_truthy c then c else d).
Proof.
  unfold attr_or, getattr. intros ->. simpl. by destruct (py_truthy c).
Qed.

Lemma attr_or_absent m a d :
  m !! a = None → attr_or m a d = Raise (AttributeError a).
Proof. unfold attr_or, getattr. by intros ->. Qed.

Lemma getattr_present m a c : m !! a = Some c → getattr m a = Ok c.
Proof. unfold getattr. by intros ->. Qed.

Lemma getattr_absent m a :
  m !! a = None → getattr m a = Raise (AttributeError a).
Proof. unfold getattr. by intros ->. Qed.

Lemma bind_ok {A B} (a : A) (k : A → result B) : (Ok a ≫= k) = k a.
Proof. reflexivity. Qed.

Lemma bind_raise {A B} (e : exn) (k : A → result B) :
  (Raise e ≫= k) = Raise e.
Proof. reflexivity. Qed.

(** The outcome of the dictionary display, attribute by attribute. *)
Lemma raw_record_cases m :
  match first_missing m raw_attributes with
  | Some a => raw_record py_str m = Raise (AttributeError a)
  | None => ∃ r, raw_record py_str m = Ok r
  end.
Proof.
  unfold raw_record, raw_attributes. cbn [first_missing].
  destruct (m !! "id") as [v1 |] eqn:H1;
    [rewrite (getattr_present _ _ _ H1), bind_ok
    | by rewrite (getattr_absent _ _ H1), bind_raise].
  destruct (m !! "author") as [v2 |] eqn:H2;
    [rewrite (attr_or_present _ _ _ _ H2), bind_ok
    | by rewrite (attr_or_absent _ _ _ H2), bind_raise].
  destruct (m !! "pipeline_tag") as [v3 |] eqn:H3;
    [rewrite (attr_or_present _ _ _ _ H3), bind_ok
    | by rewrite (attr_or_absent _ _ _ H3), bind_raise].
  destruct (m !! "tags") as [v4 |] eqn:H4;
    [rewrite (attr_or_present _ _ _ _ H4), bind_ok
    | by rewrite (attr_or_absent _ _ _ H4), bind_raise].
  destruct (m !! "lastModified") as [v5 |] eqn:H5;
    [rewrite (getattr_present _ _ _ H5), bind_ok; by eexists
    | by rewrite (getattr_absent _ _ H5), bind_raise].
Qed.

(** X1: mapping a hub object raises exactly when it lacks one of the
    five attributes read, and the exception names the first one missing
    in the order they are read. *)
Theorem raw_record_first_missing m :
  match first_missing m raw_attributes with
  | Some a => raw_record py_str m = Raise (AttributeError a)
  | None => ∃ r, raw_record py_str m = Ok r
  end.
Proof. exact (raw_record_cases m). Qed.

(** X2: a raw record built by the extractor has the five keys and no
    other; its [model_id] is the object's [id]; [author] and
    [pipeline_tag] are either [None] or a value that is not falsy, and
    then the object's own; [tags] are either [[]] or the object's
    non-empty ones; [last_modified] is a string. *)
Theorem raw_record_shape m r :
  raw_record py_str m = Ok r →
  dom r = record_keys
  ∧ r !! "model_id" = m !! "id"
  ∧ (r !! "author" = Some VNone
     ∨ (filled r "author" ∧ r !! "author" = m !! "author"))
  ∧ (r !! "pipeline_tag" = Some VNone
     ∨ (filled r "pipeline_tag" ∧ r !! "pipeline_tag" = m !! "pipeline_tag"))
  ∧ (r !! "tags" = Some (VList [])
     ∨ (filled r "tags" ∧ r !! "tags" = m !! "tags"))
  ∧ ∃ s, r !! "last_modified" = Some (VStr s).
Proof.
  unfold raw_record.
  destruct (getattr m "id") as [v1 |] eqn:H1; simpl; [| done].
  destruct (attr_or m "author" VNone) as [v2 |] eqn:H2; simpl; [| done].
  destruct (attr_or m "pipeline_tag" VNone) as [v3 |] eqn:H3; simpl; [| done].
  destruct (attr_or m "tags" (VList [])) as [v4 |] eqn:H4; simpl; [| done].
  destruct (getattr m "lastModified") as [v5 |] eqn:H5; simpl; [| done].
  intros [= <-].
  apply attr_or_inv in H2 as (c2 & Hc2 & ->).
  apply attr_or_inv in H3 as (c3 & Hc3 & ->).
  apply attr_or_inv in H4 as (c4 & Hc4 & ->).
  unfold getattr in H1. destruct (m !! "id") as [i |]; [| done].
  injection H1 as ->.
  split_and!.
  - rewrite !dom_insert_L, dom_empty_L. done.
  - by simplify_map_eq.
  - unfold filled. simplify_map_eq.
    destruct (py_truthy c2) eqn:Ht; [right | by left].
    split; [by exists c2 | done].
  - unfold filled. simplify_map_eq.
    destruct (py_truthy c3) eqn:Ht; [right | by left].
    split; [by exists c3 | done].
  - unfold filled. simplify_map_eq.
    destruct (py_truthy c4) eqn:Ht; [right | by left].
    split; [by exists c4 | done].
  - simplify_map_eq. by eexists.
Qed.

Lemma comprehension_ok_inv items stop raw :
  comprehension py_str items stop = Ok raw →
  stop = None ∧ Forall2 (fun m r => raw_record py_str m = Ok r) items raw.
Proof.
  revert raw. induction items as [| m rest IH]; intros raw; simpl.
  - destruct stop; [done |]. intros [= <-]. split; [done | constructor].
  - destruct (raw_record py_str m) as [r |] eqn:Hr; simpl; [| done].
    destruct (comprehension py_str rest stop) as [rs |]; simpl; [| done].
    intros [= <-]. destruct (IH rs eq_refl) as [-> Hrest].
    split; [done | by constructor].
Qed.

Lemma comprehension_ok items :
  Forall (fun m => first_missing m raw_attributes = None) items →
  ∃ raw, comprehension py_str items None = Ok raw.
Proof.
  induction 1 as [| m rest Hm _ [rs IH]]; simpl; [by eexists |].
  pose proof (raw_record_cases m) as Hr. rewrite Hm in Hr.
  destruct Hr as [r ->]. simpl. rewrite IH. simpl. by eexists.
Qed.

(** X3: the extractor never raises and always leaves a list under
    [raw_models]: the records of all the items, one per item and in
    their order, with the status of success, or the empty list with the
    status of failure; nothing in between. *)
Theorem extract_all_or_nothing ti :
  (∃ items raw,
     list_models hub_request = Listing items None
     ∧ Forall2 (fun m r => raw_record py_str m = Ok r) items raw
     ∧ extract_model_data list_models py_str ti
       = (Ok "Extract completed successfully",
          xcom_push ti "raw_models" raw))
  ∨ ((∃ e, fetch_raw_models list_models py_str = Raise e)
     ∧ extract_model_data list_models py_str ti
       = (Ok "Extract failed", xcom_push ti "raw_models" [])).
Proof.
  unfold extract_model_data.
  destruct (fetch_raw_models list_models py_str) as [raw | e] eqn:Hfetch.
  - left. unfold fetch_raw_models in Hfetch.
    destruct (list_models hub_request) as [e | items stop]; [done |].
    destruct (comprehension_ok_inv _ _ _ Hfetch) as [-> Hmap].
    by exists items, raw.
  - right. split; [by exists e | done].
Qed.

(** X4: when the hub lists items that all have the five attributes and
    the listing ends without an exception, the extractor reports
    success and pushes one raw record per item, in the order listed. *)
Theorem extract_success_on_complete_items ti items :
  list_models hub_request = Listing items None →
  Forall (fun m => first_missing m raw_attributes = None) items →
  ∃ raw,
    extract_model_data list_models py_str ti
    = (Ok "Extract completed successfully", xcom_push ti "raw_models" raw)
    ∧ Forall2 (fun m r => raw_record py_str m = Ok r) items raw
    ∧ length raw = length items.
Proof.
  intros Hlist Hitems. unfold extract_model_data, fetch_raw_models.
  rewrite Hlist. destruct (comprehension_ok items Hitems) as [raw Hraw].
  rewrite Hraw. exists raw.
  destruct (comprehension_ok_inv _ _ _ Hraw) as [_ Hmap].
  split_and!; [done | done |]. symmetry. by eapply Forall2_length.
Qed.

End ExtractShape.

Lemma raw_record_shape_witness :
  dom sample_raw_m1 = record_keys
  ∧ sample_raw_m1 !! "model_id" = sample_model_info !! "id"
  ∧ (sample_raw_m1 !! "author" = Some VNone
     ∨ (filled sample_raw_m1 "author"
        ∧ sample_raw_m1 !! "author" = sample_model_info !! "author"))
  ∧ (sample_raw_m1 !! "pipeline_tag" = Some VNone
     ∨ (filled sample_raw_m1 "pipeline_tag"
        ∧ sample_raw_m1 !! "pipeline_tag"
          = sample_model_info !! "pipeline_tag"))
  ∧ (sample_raw_m1 !! "tags" = Some (VList [])
     ∨ (filled sample_raw_m1 "tags"
        ∧ sample_raw_m1 !! "tags" = sample_model_info !! "tags"))
  ∧ ∃ s, sample_raw_m1 !! "last_modified" = Some (VStr s).
Proof.
  apply (raw_record_shape sample_str sample_model_info sample_raw_m1).
  reflexivity.
Defined.

Lemma extract_success_on_complete_items_witness :
  ∃ raw,
    Extract.extract_model_data sample_hub_small sample_str sample_extract_run
    = (Ok "Extract completed successfully",
       xcom_push sample_extract_run "raw_models" raw)
    ∧ Forall2 (fun m r => Extract.raw_record sample_str m = Ok r)
        [sample_model_info] raw
    ∧ length raw = length [sample_model_info].
Proof.
  apply (extract_success_on_complete_items sample_hub_small sample_str
           sample_extract_run [sample_model_info]).
  - reflexivity.
  - constructor; [reflexivity | constructor].
Defined.

(** * Further properties of the transformer *)

Section TransformShape.

Import Transform.

Lemma or_empty_some l : or_empty (Some l) = l.
Proof. by destruct l. Qed.

Lemma py_or_truthy a d : py_truthy d = true → py_truthy (py_or a d) = true.
Proof. unfold py_or. by destruct (py_truthy a) eqn:Ha. Qed.

Lemma py_or_idem a d : py_or (py_or a d) d = py_or a d.
Proof.
  unfold py_or. destruct (py_truthy a) eqn:Ha; [by rewrite Ha |].
  by destruct (py_truthy d).
Qed.

(** The fields of the dictionary of lines 94-100. *)
Lemma clean_record_lookup mid m :
  clean_record mid m !! "model_id" = Some mid
  ∧ clean_record mid m !! "author"
    = Some (py_or (dict_get m "author") (VStr "N/A"))
  ∧ clean_record mid m !! "pipeline_tag"
    = Some (py_or (dict_get m "pipeline_tag") (VStr "N/A"))
  ∧ clean_record mid m !! "tags" = Some (py_or (dict_get m "tags") (VList []))
  ∧ clean_record mid m !! "last_modified" = Some (dict_get m "last_modified")
  ∧ dom (clean_record mid m) = record_keys.
Proof.
  unfold clean_record. split_and!; by simplify_map_eq.
Qed.

Lemma clean_record_idem mid m :
  clean_record mid (clean_record mid m) = clean_record mid m.
Proof.
  destruct (clean_record_lookup mid m) as (_ & Ha & Hp & Ht & Hl & _).
  unfold clean_record at 1. unfold dict_get at 1 2 3 4.
  rewrite Ha, Hp, Ht, Hl. simpl. by rewrite !py_or_idem.
Qed.

Lemma valid_hashable_string v :
  valid_id v = true → hashable_id v → ∃ s, v = VStr s ∧ s ≠ "".
Proof.
  destruct v as [| s | [| x l]]; simpl; try done.
  intros Hs _. exists s. split; [done |]. intros ->. done.
Qed.

Lemma transform_step_ok_hashable st m st' :
  transform_step st m = Ok st' → hashable_id (record_id m).
Proof.
  unfold transform_step. fold (record_id m).
  by destruct (record_id m) as [| s | [| x l]].
Qed.

Lemma transform_loop_ok_hashable raw st st' :
  transform_loop raw st = Ok st' →
  Forall (fun m => hashable_id (record_id m)) raw.
Proof.
  revert st. induction raw as [| m rest IH]; intros st; simpl; [done |].
  destruct (transform_step st m) as [st1 |] eqn:Hstep; simpl; [| done].
  intros Hloop. constructor; [by eapply transform_step_ok_hashable | eauto].
Qed.

Lemma transform_step_unhashable st m :
  unhashable_id (record_id m) →
  transform_step st m = Raise (TypeError "unhashable type: 'list'").
Proof.
  unfold transform_step. fold (record_id m). by intros (x & l & ->).
Qed.

Lemma hashable_or_not v : hashable_id v ∨ unhashable_id v.
Proof.
  destruct v as [| s | [| x l]]; simpl; auto. right. by exists x, l.
Qed.

Lemma transform_loop_unhashable raw st :
  Exists (fun m => unhashable_id (record_id m)) raw →
  transform_loop raw st = Raise (TypeError "unhashable type: 'list'").
Proof.
  intros Hraw. revert st.
  induction raw as [| m rest IH]; intros st; [by apply Exists_nil in Hraw |].
  simpl. destruct (hashable_or_not (record_id m)) as [Hm | Hm].
  - destruct (transform_loop_total [m] st) as [st1 Hst1];
      [by constructor |].
    simpl in Hst1.
    destruct (transform_step st m) as [st2 |]; simpl in *; [| done].
    apply IH. apply Exists_cons in Hraw as [(x & l & Hbad) | Hrest]; [| done].
    rewrite Hbad in Hm. done.
  - by rewrite transform_step_unhashable.
Qed.

(** Every emitted record is the cleaned form of a raw record whose
    [model_id] is a non-empty string. *)
Lemma transform_output_clean raw out :
  transform_records raw = Ok out →
  Forall (fun r => ∃ m s, m ∈ raw ∧ r = clean_record (VStr s) m
                          ∧ record_id m = VStr s ∧ s ≠ "") out.
Proof.
  intros Hout. destruct (transform_records_spec _ _ Hout) as [Hids Hclean].
  assert (Hhash : Forall (fun m => hashable_id (record_id m)) raw).
  { unfold transform_records in Hout.
    destruct (transform_loop raw ([], ∅)) as [st |] eqn:Hloop; [| done].
    by eapply transform_loop_ok_hashable. }
  apply Forall_forall. intros r Hr.
  rewrite Forall_forall in Hclean. destruct (Hclean r Hr) as (m & Hm & ->).
  rewrite Forall_forall in Hhash.
  assert (Hvalid : valid_id (record_id m) = true).
  { assert (Hin : record_id m ∈ record_id <$> out).
    { apply list_elem_of_fmap. exists (clean_record (record_id m) m).
      by rewrite record_id_clean. }
    rewrite Hids in Hin. apply first_occurrences_subset in Hin.
    by apply list_elem_of_filter in Hin as [? _]. }
  destruct (valid_hashable_string _ Hvalid (Hhash m Hm)) as (s & Hs & Hne).
  exists m, s. by rewrite Hs.
Qed.

(** X5: every record the transformer emits has the five keys and no
    other; its [model_id] is a non-empty string; [author] and
    [pipeline_tag] are never [None] nor empty; [tags] are [[]] or
    non-empty. *)
Theorem transform_output_shape raw out :
  transform_records raw = Ok out →
  Forall (fun r =>
            dom r = record_keys
            ∧ (∃ s, r !! "model_id" = Some (VStr s) ∧ s ≠ "")
            ∧ filled r "author"
            ∧ filled r "pipeline_tag"
            ∧ (r !! "tags" = Some (VList []) ∨ filled r "tags")
            ∧ is_Some (r !! "last_modified")) out.
Proof.
  intros Hout. eapply Forall_impl; [by apply transform_output_clean |].
  intros r (m & s & _ & -> & _ & Hne).
  destruct (clean_record_lookup (VStr s) m)
    as (Hi & Ha & Hp & Ht & Hl & Hdom).
  unfold filled. split_and!.
  - done.
  - exists s. by rewrite Hi.
  - eexists. split; [exact Ha | by apply py_or_truthy].
  - eexists. split; [exact Hp | by apply py_or_truthy].
  - rewrite Ht. unfold py_or.
    destruct (py_truthy (dict_get m "tags")) eqn:Htags; [right | by left].
    by eexists.
  - by rewrite Hl.
Qed.

Lemma transform_output_shape_witness :
  Forall (fun r =>
            dom r = record_keys
            ∧ (∃ s, r !! "model_id" = Some (VStr s) ∧ s ≠ "")
            ∧ filled r "author"
            ∧ filled r "pipeline_tag"
            ∧ (r !! "tags" = Some (VList []) ∨ filled r "tags")
            ∧ is_Some (r !! "last_modified"))
    [sample_clean_m1; sample_clean_m2].
Proof.
  apply (transform_output_shape
           [sample_m1; sample_anonymous; sample_m2; sample_m1_again]).
  reflexivity.
Defined.

(** X6: a record whose [model_id] is a non-empty list makes the task
    raise [TypeError]; nothing is pushed to the hand-off store. *)
Theorem transform_raises_on_unhashable ti raw :
  xcom_pull ti "raw_models" extract_task_id = Some raw →
  Exists (fun m => unhashable_id (record_id m)) raw →
  transform_model_data ti
  = (Raise (TypeError "unhashable type: 'list'"), ti).
Proof.
  intros Hpull Hraw. unfold transform_model_data, transform_records.
  rewrite Hpull, or_empty_some.
  by rewrite (transform_loop_unhashable raw _ Hraw).
Qed.

Lemma transform_raises_on_unhashable_witness :
  transform_model_data
    (sample_run [sample_m1; <["model_id" := VList ["m"; "2"]]> sample_m2])
  = (Raise (TypeError "unhashable type: 'list'"),
     sample_run [sample_m1; <["model_id" := VList ["m"; "2"]]> sample_m2]).
Proof.
  apply (transform_raises_on_unhashable _
           [sample_m1; <["model_id" := VList ["m"; "2"]]> sample_m2]).
  - reflexivity.
  - apply Exists_cons. right. apply Exists_cons. left.
    exists "m", ["2"]. reflexivity.
Defined.

(** On a list of records with distinct non-empty string ids the loop
    skips nothing. *)
Lemma transform_loop_clean l acc seen :
  NoDup (record_id <$> l) →
  Forall (fun r => ∃ s, record_id r = VStr s ∧ s ≠ "") l →
  (∀ k, k ∈ record_id <$> l → k ∉ seen) →
  ∃ seen',
    transform_loop l (acc, seen)
    = Ok (acc ++ ((fun r => clean_record (record_id r) r) <$> l), seen').
Proof.
  revert acc seen. induction l as [| r l IH]; intros acc seen Hnd Hstr Hfresh.
  - exists seen. simpl. by rewrite app_nil_r.
  - rewrite fmap_cons in Hnd. apply NoDup_cons in Hnd as [Hr Hnd].
    apply Forall_cons in Hstr as [(s & Hs & Hne) Hstr].
    assert (Hstep : transform_step (acc, seen) r
                    = Ok (acc ++ [clean_record (record_id r) r],
                          {[record_id r]} ∪ seen)).
    { unfold transform_step. fold (record_id r).
      assert (Hunseen : record_id r ∉ seen).
      { apply Hfresh. rewrite fmap_cons. by left. }
      rewrite Hs in *. simpl.
      destruct (String.eqb s "") eqn:He;
        [by apply String.eqb_eq in He |].
      simpl. by rewrite bool_decide_eq_false_2. }
    cbn [transform_loop]. rewrite Hstep, bind_ok.
    destruct (IH (acc ++ [clean_record (record_id r) r])
                ({[record_id r]} ∪ seen) Hnd Hstr) as [seen' ->].
    + intros k Hk. rewrite not_elem_of_union, not_elem_of_singleton.
      split; [by intros -> |]. apply Hfresh. rewrite fmap_cons. by right.
    + exists seen'. by rewrite fmap_cons, <- app_assoc.
Qed.

(** X7: cleaning is idempotent: the transformer leaves its own output
    as it is. *)
Theorem transform_idempotent raw out :
  transform_records raw = Ok out → transform_records out = Ok out.
Proof.
  intros Hout. destruct (transform_records_spec _ _ Hout) as [Hids _].
  pose proof (transform_output_clean _ _ Hout) as Hclean.
  unfold transform_records.
  destruct (transform_loop_clean out [] ∅) as [seen' ->].
  - rewrite Hids. apply first_occurrences_NoDup.
  - eapply Forall_impl; [exact Hclean |].
    intros r (m & s & _ & -> & _ & Hne). exists s.
    by rewrite record_id_clean.
  - intros k _. apply not_elem_of_empty.
  - rewrite bind_ok. simpl. f_equal.
    rewrite <- (list_fmap_id out) at 2. apply Forall_fmap_ext.
    eapply Forall_impl; [exact Hclean |].
    intros r (m & s & _ & -> & _ & _).
    by rewrite record_id_clean, clean_record_idem.
Qed.

Lemma transform_idempotent_witness :
  transform_records [sample_clean_m1; sample_clean_m2]
  = Ok [sample_clean_m1; sample_clean_m2].
Proof.
  apply (transform_idempotent
           [sample_m1; sample_anonymous; sample_m2; sample_m1_again]).
  reflexivity.
Defined.

Lemma first_occurrences_elem l x : x ∈ first_occurrences l ↔ x ∈ l.
Proof.
  split; [apply first_occurrences_subset |].
  induction l as [| y l IH]; simpl; [done |].
  rewrite !elem_of_cons, list_elem_of_filter.
  destruct (decide (x = y)); [by left | intros [? | ?]; [done | right; auto]].
Qed.

Lemma first_occurrences_length l : length (first_occurrences l) ≤ length l.
Proof.
  induction l as [| y l IH]; simpl; [done |].
  pose proof (length_filter (fun z => z ≠ y) (first_occurrences l)). lia.
Qed.

(** X8: the [model_id]s of the output are exactly the valid [model_id]s
    of the input, each once: no valid model is lost, and the output has
    as many records as the input has distinct valid ids, never more
    than the input has records. *)
Theorem transform_ids_exact raw out :
  transform_records raw = Ok out →
  (∀ k, k ∈ record_id <$> out ↔ k ∈ record_id <$> raw ∧ valid_id k = true)
  ∧ length out
    = size (list_to_set
              (filter (fun v => valid_id v = true) (record_id <$> raw))
            : gset value)
  ∧ length out ≤ length raw.
Proof.
  intros Hout. destruct (transform_records_spec _ _ Hout) as [Hids _].
  split_and!.
  - intros k. rewrite Hids, first_occurrences_elem, list_elem_of_filter. tauto.
  - rewrite <- (length_fmap record_id out), Hids.
    rewrite <- (size_list_to_set (C := gset value))
      by apply first_occurrences_NoDup.
    f_equal. apply set_eq. intros k.
    by rewrite !elem_of_list_to_set, first_occurrences_elem.
  - rewrite <- (length_fmap record_id out), Hids.
    etrans; [apply first_occurrences_length |].
    etrans; [apply length_filter |]. by rewrite length_fmap.
Qed.

Lemma transform_ids_exact_witness :
  (∀ k, k ∈ record_id <$> [sample_clean_m1; sample_clean_m2]
        ↔ k ∈ record_id <$> [sample_m1; sample_anonymous; sample_m2;
                             sample_m1_again]
          ∧ valid_id k = true)
  ∧ length [sample_clean_m1; sample_clean_m2]
    = size (list_to_set
              (filter (fun v => valid_id v = true)
                 (record_id <$> [sample_m1; sample_anonymous; sample_m2;
                                 sample_m1_again]))
            : gset value)
  ∧ length [sample_clean_m1; sample_clean_m2]
    ≤ length [sample_m1; sample_anonymous; sample_m2; sample_m1_again].
Proof.
  apply (transform_ids_exact
           [sample_m1; sample_anonymous; sample_m2; sample_m1_again]).
  reflexivity.
Defined.

Lemma transform_step_seen st m :
  record_id m ∈ snd st → hashable_id (record_id m) →
  transform_step st m = Ok st.
Proof.
  unfold transform_step. fold (record_id m).
  destruct (record_id m) as [| s | [| x l]]; simpl; try done.
  intros Hin _. destruct (negb (String.eqb s "")); simpl; [| done].
  by rewrite bool_decide_eq_true_2.
Qed.

Lemma transform_loop_later_duplicate m between m' post st :
  record_id m' = record_id m →
  transform_loop (m :: between ++ m' :: post) st
  = transform_loop (m :: between ++ post) st.
Proof.
  intros Hsame. cbn [transform_loop].
  destruct (transform_step st m) as [st2 |] eqn:Hstep; [| done].
  rewrite !bind_ok, !transform_loop_app.
  destruct (transform_loop between st2) as [st3 |] eqn:Hbetween; [| done].
  rewrite !bind_ok. cbn [transform_loop].
  assert (Hskip : transform_step st3 m' = Ok st3); [| by rewrite Hskip].
  destruct (transform_loop_spec _ _ _ Hbetween) as (new & _ & _ & Hseen & _).
  pose proof (transform_step_ok_hashable _ _ _ Hstep) as Hhash.
  destruct (transform_step_inv _ _ _ Hstep)
    as [[Hst2 [Hfalsy | Hdup]] | (_ & _ & Hst2)].
  - apply transform_step_skip. by rewrite Hsame.
  - apply transform_step_seen; rewrite Hsame; [| done].
    rewrite Hseen, Hst2. set_solver.
  - apply transform_step_seen; rewrite Hsame; [| done].
    rewrite Hseen, Hst2. simpl. set_solver.
Qed.

(** X9: a record that repeats the [model_id] of an earlier record makes
    no difference: with or without it the transformer gives the same
    result, output or exception. *)
Theorem transform_ignores_later_duplicate pre m between m' post :
  record_id m' = record_id m →
  transform_records (pre ++ m :: between ++ m' :: post)
  = transform_records (pre ++ m :: between ++ post).
Proof.
  intros Hsame. unfold transform_records. rewrite !transform_loop_app.
  destruct (transform_loop pre ([], ∅)) as [st |]; [| done].
  rewrite !bind_ok. by rewrite (transform_loop_later_duplicate _ _ m').
Qed.

Lemma transform_ignores_later_duplicate_witness :
  transform_records
    ([sample_m2] ++ sample_m1 :: [sample_anonymous] ++ sample_m1_again :: [])
  = transform_records ([sample_m2] ++ sample_m1 :: [sample_anonymous] ++ []).
Proof.
  apply (transform_ignores_later_duplicate
           [sample_m2] sample_m1 [sample_anonymous] sample_m1_again []).
  reflexivity.
Defined.

End TransformShape.

(** * Further properties of the loader *)

Section LoadMore.

Import Load.

Lemma dict_item_present model k v : model !! k = Some v → dict_item model k = Ok v.
Proof. unfold dict_item. by intros ->. Qed.

Lemma dict_item_absent model k :
  model !! k = None → dict_item model k = Raise (KeyError k).
Proof. unfold dict_item. by intros ->. Qed.

(** The parameter tuple of a record: [KeyError] on the first key it
    lacks, its five values otherwise. *)
Lemma parameters_of_first_missing model :
  parameters_of model
  = match first_missing model parameter_keys with
    | Some k => Raise (KeyError k)
    | None =>
        Ok {| model_id := dict_get model "model_id";
              author := dict_get model "author";
              pipeline_tag := dict_get model "pipeline_tag";
              tags := dict_get model "tags";
              last_modified := dict_get model "last_modified" |}
    end.
Proof.
  unfold parameters_of, parameter_keys, dict_get. cbn [first_missing].
  destruct (model !! "model_id") as [v1 |] eqn:H1;
    [rewrite (dict_item_present _ _ _ H1), bind_ok
    | by rewrite (dict_item_absent _ _ H1), bind_raise].
  destruct (model !! "author") as [v2 |] eqn:H2;
    [rewrite (dict_item_present _ _ _ H2), bind_ok
    | by rewrite (dict_item_absent _ _ H2), bind_raise].
  destruct (model !! "pipeline_tag") as [v3 |] eqn:H3;
    [rewrite (dict_item_present _ _ _ H3), bind_ok
    | by rewrite (dict_item_absent _ _ H3), bind_raise].
  destruct (model !! "tags") as [v4 |] eqn:H4;
    [rewrite (dict_item_present _ _ _ H4), bind_ok
    | by rewrite (dict_item_absent _ _ H4), bind_raise].
  destruct (model !! "last_modified") as [v5 |] eqn:H5;
    [by rewrite (dict_item_present _ _ _ H5), bind_ok
    | by rewrite (dict_item_absent _ _ H5), bind_raise].
Qed.

Lemma hook_run_raise_inv q db e db' :
  hook_run q db = (Raise e, db') →
  ai_models db' = ai_models db ∧ journal db' = journal db ++ [q].
Proof.
  unfold hook_run.
  destruct (faults db) as [| [|] fs];
    destruct (execute q (ai_models db)) as [t |]; try done;
    by intros [= <- <-].
Qed.

(** Whatever the loop ends with, the table holds the upserts of a
    prefix of the list. *)
Lemma load_loop_inv rs db r db' rows :
  load_loop rs db = (r, db') →
  ai_models db = Some rows →
  ∃ pre ps, pre `prefix_of` rs ∧ bound pre ps
            ∧ ai_models db' = Some (upsert_all rows ps).
Proof.
  revert db rows. induction rs as [| model rs IH]; intros db rows; simpl.
  - intros [= <- <-] Hrows. exists [], []. split_and!; [done | constructor | done].
  - destruct (parameters_of model) as [p |] eqn:Hp.
    + destruct (hook_run (Insert p) db) as [[u | e] db1] eqn:Hrun.
      * intros Hloop Hrows.
        destruct (hook_run_ok_inv _ _ _ _ Hrun) as (t & Hexec & ->).
        rewrite Hrows in Hexec. simpl in Hexec. injection Hexec as <-.
        destruct (IH _ (upsert p rows) Hloop eq_refl)
          as (pre & ps & Hpre & Hbound & Hfinal).
        exists (model :: pre), (p :: ps).
        split_and!; [by apply prefix_cons | by constructor | done].
      * intros [= <- <-] Hrows.
        destruct (hook_run_raise_inv _ _ _ _ Hrun) as [Hsame _].
        exists [], []. split_and!; [apply prefix_nil | constructor |].
        by rewrite Hsame.
    + intros [= <- <-] Hrows. exists [], [].
      split_and!; [apply prefix_nil | constructor | done].
Qed.

(** Whatever the task ends with, the table is as it was or holds the
    upserts of a prefix of the list. *)
Lemma load_to_postgres_inv ti db r db' :
  load_to_postgres ti db = (r, db') →
  ai_models db' = ai_models db
  ∨ ∃ rs pre ps,
      xcom_pull ti "transformed_models" transform_task_id = Some rs
      ∧ pre `prefix_of` rs ∧ bound pre ps
      ∧ ai_models db' = Some (upsert_all (created (ai_models db)) ps).
Proof.
  destruct (xcom_pull ti "transformed_models" transform_task_id)
    as [rs |] eqn:Hpull.
  - destruct (decide (rs = [])) as [-> | Hrs].
    + unfold load_to_postgres. rewrite Hpull. intros [= <- <-]. by left.
    + rewrite (load_to_postgres_nonempty _ _ _ Hpull Hrs).
      destruct (hook_run CreateTable db) as [[u | e] db1] eqn:Hcreate.
      * destruct (hook_run_ok_inv _ _ _ _ Hcreate) as (t & Hexec & ->).
        rewrite execute_create in Hexec. injection Hexec as <-.
        destruct (load_loop rs _) as [r2 db2] eqn:Hloop.
        destruct (load_loop_inv _ _ _ _ _ Hloop eq_refl)
          as (pre & ps & Hpre & Hbound & Hfinal).
        intros Hres. right. exists rs, pre, ps.
        split_and!; try done.
        destruct r2; injection Hres as <- <-; done.
      * intros [= <- <-]. left.
        by destruct (hook_run_raise_inv _ _ _ _ Hcreate).
  - unfold load_to_postgres. rewrite Hpull. intros [= <- <-]. by left.
Qed.

Lemma upsert_length p rows : length rows ≤ length (upsert p rows).
Proof.
  induction rows as [| r rest IH]; simpl; [lia |].
  destruct (decide (model_id r = model_id p)); simpl; lia.
Qed.

Lemma upsert_all_length ps rows : length rows ≤ length (upsert_all rows ps).
Proof.
  revert rows. induction ps as [| p ps IH]; intros rows; simpl; [done |].
  etrans; [apply (upsert_length p) | apply IH].
Qed.

(** Upserting a row that is already there changes nothing. *)
Lemma upsert_present p rows :
  NoDup (model_id <$> rows) → p ∈ rows → upsert p rows = rows.
Proof.
  induction rows as [| r rest IH]; intros Hnd Hin; simpl.
  - by apply elem_of_nil in Hin.
  - rewrite fmap_cons in Hnd. apply NoDup_cons in Hnd as [Hr Hnd].
    apply elem_of_cons in Hin as [-> | Hin].
    + rewrite decide_True by done. by destruct r.
    + rewrite decide_False; [by rewrite IH |].
      intros Heq. apply Hr. rewrite Heq. by apply list_elem_of_fmap_2.
Qed.

Lemma upsert_all_present ps rows :
  NoDup (model_id <$> rows) → Forall (fun p => p ∈ rows) ps →
  upsert_all rows ps = rows.
Proof.
  intros Hnd. induction 1 as [| p ps Hp _ IH]; simpl; [done |].
  by rewrite (upsert_present p rows).
Qed.

Lemma upsert_all_app rows ps qs :
  upsert_all rows (ps ++ qs) = upsert_all (upsert_all rows ps) qs.
Proof. unfold upsert_all. apply foldl_app. Qed.

Lemma upsert_all_holds p ps rows :
  NoDup (model_id <$> rows) → NoDup (model_id <$> ps) → p ∈ ps →
  p ∈ upsert_all rows ps.
Proof.
  intros Hrows Hps Hp.
  pose proof (rows_with_upsert_all p ps rows Hrows Hps Hp) as Hone.
  assert (Hin : p ∈ rows_with (model_id p) (upsert_all rows ps)).
  { rewrite Hone. by apply list_elem_of_singleton. }
  unfold rows_with in Hin. by apply list_elem_of_filter in Hin as [_ ?].
Qed.

(** Running the first upserts again before the whole run changes
    nothing. *)
Lemma upsert_all_replay rows pre rest :
  NoDup (model_id <$> rows) → NoDup (model_id <$> pre ++ rest) →
  upsert_all (upsert_all rows pre) (pre ++ rest) = upsert_all rows (pre ++ rest).
Proof.
  intros Hrows Hps. rewrite !upsert_all_app. f_equal.
  rewrite fmap_app in Hps. apply NoDup_app in Hps as (Hpre & _ & _).
  apply upsert_all_present; [by apply upsert_all_NoDup |].
  apply Forall_forall. intros p Hp. by apply upsert_all_holds.
Qed.

Lemma bound_functional rs ps ps' : bound rs ps → bound rs ps' → ps = ps'.
Proof.
  intros Hps. revert ps'.
  induction Hps as [| model p rs ps Hp _ IH]; intros ps' Hps'.
  - by inversion Hps'.
  - inversion Hps' as [| ? p' ? ps'' Hp' Hrest]; subst.
    rewrite Hp in Hp'. injection Hp' as <-. by rewrite (IH ps'').
Qed.

Lemma bound_prefix pre rs ps_pre ps :
  pre `prefix_of` rs → bound pre ps_pre → bound rs ps →
  ∃ rest, ps = ps_pre ++ rest.
Proof.
  intros [k ->] Hpre Hrs.
  apply Forall2_app_inv_l in Hrs as (ps1 & ps2 & Hps1 & _ & ->).
  exists ps2. by rewrite (bound_functional _ _ _ Hpre Hps1).
Qed.

(** X10: when no statement fails and every record has the five keys,
    the loader reports the number of records, the table holds their
    upserts applied in the order of the list, and the database received
    the [CREATE TABLE] and then one [INSERT] per record, in that
    order. *)
Theorem load_success ti db rs ps fs :
  xcom_pull ti "transformed_models" transform_task_id = Some rs →
  rs ≠ [] →
  bound rs ps →
  faults db = replicate (S (length rs)) false ++ fs →
  load_to_postgres ti db
  = (Ok ("loaded " +:+ pretty (length rs) +:+ " models"),
     {| ai_models := Some (upsert_all (created (ai_models db)) ps);
        journal := journal db ++ CreateTable :: (Insert <$> ps);
        faults := fs |}).
Proof.
  intros Hpull Hrs Hbound Hfaults.
  rewrite (load_to_postgres_nonempty _ _ _ Hpull Hrs).
  simpl in Hfaults.
  rewrite (hook_run_clear CreateTable db _ _ Hfaults (execute_create _)).
  rewrite (load_loop_clear rs ps _ (created (ai_models db)) fs) by done.
  cbn [journal]. by rewrite <- app_assoc.
Qed.

Lemma load_success_witness :
  load_to_postgres (sample_load_run [sample_clean_m1; sample_clean_m2])
    (sample_db [false; false; false; true])
  = (Ok ("loaded " +:+ pretty (length [sample_clean_m1; sample_clean_m2])
         +:+ " models"),
     {| ai_models :=
          Some (upsert_all (created None)
                  [{| model_id := VStr "m1"; author := VStr "N/A";
                      pipeline_tag := VStr "text-gen"; tags := VList [];
                      last_modified := VStr "2024-01-01" |};
                   {| model_id := VStr "m2"; author := VStr "N/A";
                      pipeline_tag := VStr "N/A"; tags := VList [];
                      last_modified := VStr "2024-03-03" |}]);
        journal :=
          [] ++ CreateTable
          :: (Insert <$>
                [{| model_id := VStr "m1"; author := VStr "N/A";
                    pipeline_tag := VStr "text-gen"; tags := VList [];
                    last_modified := VStr "2024-01-01" |};
                 {| model_id := VStr "m2"; author := VStr "N/A";
                    pipeline_tag := VStr "N/A"; tags := VList [];
                    last_modified := VStr "2024-03-03" |}]);
        faults := [true] |}).
Proof.
  apply (load_success (sample_load_run [sample_clean_m1; sample_clean_m2])
           (sample_db [false; false; false; true])
           [sample_clean_m1; sample_clean_m2]).
  - reflexivity.
  - discriminate.
  - repeat constructor; reflexivity.
  - reflexivity.
Defined.

(** X11: a record that lacks one of the five keys makes the loader
    raise [KeyError] for the first key missing, in the order the keys
    are read; no statement is sent for that record or for those after
    it, and the upserts of the records before it stay in the table. *)
Theorem load_key_error ti db pre model post ps k fs :
  xcom_pull ti "transformed_models" transform_task_id
  = Some (pre ++ model :: post) →
  bound pre ps →
  first_missing model parameter_keys = Some k →
  faults db = replicate (S (length pre)) false ++ fs →
  load_to_postgres ti db
  = (Raise (KeyError k),
     {| ai_models := Some (upsert_all (created (ai_models db)) ps);
        journal := journal db ++ CreateTable :: (Insert <$> ps);
        faults := fs |}).
Proof.
  intros Hpull Hbound Hmissing Hfaults.
  rewrite (load_to_postgres_nonempty _ _ _ Hpull) by (by destruct pre).
  simpl in Hfaults.
  rewrite (hook_run_clear CreateTable db _ _ Hfaults (execute_create _)).
  rewrite load_loop_app.
  rewrite (load_loop_clear pre ps _ (created (ai_models db)) fs) by done.
  cbn [load_loop]. rewrite parameters_of_first_missing, Hmissing.
  cbn [journal]. by rewrite <- app_assoc.
Qed.

Lemma load_key_error_witness :
  load_to_postgres
    (sample_load_run [sample_clean_m1; delete "tags" sample_clean_m2])
    (sample_db [false; false; true])
  = (Raise (KeyError "tags"),
     {| ai_models :=
          Some (upsert_all (created None)
                  [{| model_id := VStr "m1"; author := VStr "N/A";
                      pipeline_tag := VStr "text-gen"; tags := VList [];
                      last_modified := VStr "2024-01-01" |}]);
        journal :=
          [] ++ CreateTable
          :: (Insert <$>
                [{| model_id := VStr "m1"; author := VStr "N/A";
                    pipeline_tag := VStr "text-gen"; tags := VList [];
                    last_modified := VStr "2024-01-01" |}]);
        faults := [true] |}).
Proof.
  apply (load_key_error
           (sample_load_run [sample_clean_m1; delete "tags" sample_clean_m2])
           (sample_db [false; false; true]) [sample_clean_m1] (delete "tags" sample_clean_m2) []).
  - reflexivity.
  - repeat constructor; reflexivity.
  - reflexivity.
  - reflexivity.
Defined.

(** X12: when the [CREATE TABLE] statement fails the loader raises
    the database error at once: it is the only statement sent, no
    upsert is tried and the table is as it was. *)
Theorem load_create_fault ti db rs fs :
  xcom_pull ti "transformed_models" transform_task_id = Some rs →
  rs ≠ [] →
  faults db = true :: fs →
  load_to_postgres ti db
  = (Raise (DatabaseError "statement failed"),
     {| ai_models := ai_models db; journal := journal db ++ [CreateTable];
        faults := fs |}).
Proof.
  intros Hpull Hrs Hfaults.
  rewrite (load_to_postgres_nonempty _ _ _ Hpull Hrs).
  by rewrite (hook_run_fault CreateTable db fs Hfaults).
Qed.

Lemma load_create_fault_witness :
  load_to_postgres (sample_load_run [sample_clean_m1]) (sample_db [true; false])
  = (Raise (DatabaseError "statement failed"),
     {| ai_models := ai_models (sample_db [true; false]);
        journal := journal (sample_db [true; false]) ++ [CreateTable];
        faults := [false] |}).
Proof.
  apply (load_create_fault (sample_load_run [sample_clean_m1])
           (sample_db [true; false]) [sample_clean_m1]).
  - reflexivity.
  - discriminate.
  - reflexivity.
Defined.

(** X13: the loader never deletes: however a load ends, with a status
    or with an exception, every [model_id] that had a row still has
    one, the table has not shrunk, and its primary key is still
    unique. *)
Theorem load_never_deletes ti db r db' :
  load_to_postgres ti db = (r, db') →
  pk_unique db →
  pk_unique db'
  ∧ (∀ k, k ∈ model_id <$> created (ai_models db) →
          k ∈ model_id <$> created (ai_models db'))
  ∧ length (created (ai_models db)) ≤ length (created (ai_models db')).
Proof.
  intros Hload Hpk. unfold pk_unique.
  destruct (load_to_postgres_inv _ _ _ _ Hload)
    as [-> | (rs & pre & ps & _ & _ & _ & ->)]; [done |].
  simpl. split_and!.
  - by apply upsert_all_NoDup, created_NoDup.
  - intros k. apply upsert_all_keeps.
  - apply upsert_all_length.
Qed.

Lemma load_never_deletes_witness :
  pk_unique sample_loaded_update
  ∧ (∀ k, k ∈ model_id <$> created (ai_models sample_loaded_once) →
          k ∈ model_id <$> created (ai_models sample_loaded_update))
  ∧ length (created (ai_models sample_loaded_once))
    ≤ length (created (ai_models sample_loaded_update)).
Proof.
  apply (load_never_deletes (sample_load_run [sample_clean_m1_updated])
           sample_loaded_once (Ok "loaded 1 models")).
  - reflexivity.
  - apply (bool_decide_unpack _). vm_compute. exact I.
Defined.

(** X14: however a load ends, the rows of the [model_id]s that are not
    in the loaded list are as they were. *)
Theorem load_leaves_other_rows ti db r db' rs k :
  xcom_pull ti "transformed_models" transform_task_id = Some rs →
  load_to_postgres ti db = (r, db') →
  k ∉ record_id <$> rs →
  rows_with k (created (ai_models db')) = rows_with k (created (ai_models db)).
Proof.
  intros Hpull Hload Hk.
  destruct (load_to_postgres_inv _ _ _ _ Hload)
    as [-> | (rs' & pre & ps & Hpull' & [rest Hpre] & Hbound & ->)]; [done |].
  simpl. apply rows_with_upsert_all_other.
  rewrite (bound_ids _ _ Hbound). intros Hin. apply Hk.
  rewrite Hpull in Hpull'. injection Hpull' as ->.
  rewrite Hpre, fmap_app. apply elem_of_app. by left.
Qed.

Lemma load_leaves_other_rows_witness :
  rows_with (VStr "m2") (created (ai_models sample_loaded_update))
  = rows_with (VStr "m2") (created (ai_models sample_loaded_once)).
Proof.
  apply (load_leaves_other_rows (sample_load_run [sample_clean_m1_updated])
           sample_loaded_once (Ok "loaded 1 models") sample_loaded_update
           [sample_clean_m1_updated]).
  - reflexivity.
  - reflexivity.
  - apply (bool_decide_unpack _). vm_compute. exact I.
Defined.

(** A successful load after any load of the same list of distinct ids
    gives the table of one successful load. *)
Lemma load_again_table ti db r db1 s db2 rs ps :
  xcom_pull ti "transformed_models" transform_task_id = Some rs →
  NoDup (record_id <$> rs) →
  pk_unique db →
  bound rs ps →
  load_to_postgres ti db = (r, db1) →
  load_to_postgres ti db1 = (Ok s, db2) →
  rs ≠ [] →
  ai_models db2 = Some (upsert_all (created (ai_models db)) ps).
Proof.
  intros Hpull Hids Hpk Hbound Hload1 Hload2 Hrs.
  destruct (load_to_postgres_ok_inv _ _ _ _ _ Hpull Hload2)
    as [[-> _] | (ps2 & Hbound2 & ->)]; [done |].
  rewrite (bound_functional _ _ _ Hbound2 Hbound). f_equal.
  destruct (load_to_postgres_inv _ _ _ _ Hload1)
    as [-> | (rs' & pre & ps1 & Hpull' & Hpre & Hbound1 & ->)]; [done |].
  rewrite Hpull in Hpull'. injection Hpull' as <-.
  destruct (bound_prefix _ _ _ _ Hpre Hbound1 Hbound) as [rest ->].
  simpl. apply upsert_all_replay; [by apply created_NoDup |].
  by rewrite (bound_ids _ _ Hbound).
Qed.

(** In the list that stands for the table, a second load of the same
    list changes nothing. *)
Lemma load_twice_table ti db s1 db1 s2 db2 rs :
  xcom_pull ti "transformed_models" transform_task_id = Some rs →
  NoDup (record_id <$> rs) →
  pk_unique db →
  load_to_postgres ti db = (Ok s1, db1) →
  load_to_postgres ti db1 = (Ok s2, db2) →
  ai_models db2 = ai_models db1.
Proof.
  intros Hpull Hids Hpk Hload1 Hload2.
  destruct (load_to_postgres_ok_inv _ _ _ _ _ Hpull Hload1)
    as [[-> ->] | (ps & Hbound & Hfinal)].
  - unfold load_to_postgres in Hload2. rewrite Hpull in Hload2.
    by injection Hload2 as _ <-.
  - destruct (decide (rs = [])) as [-> | Hrs].
    + unfold load_to_postgres in Hload2. rewrite Hpull in Hload2.
      by injection Hload2 as _ <-.
    + rewrite Hfinal.
      by eapply load_again_table.
Qed.

(** X15: the load is idempotent on the table: after a successful load
    of a list with distinct ids, a second successful load of the same
    list leaves the table with exactly the rows it had, no row added,
    dropped or changed; the rows are compared without regard to their
    order, which a table does not have. *)
Theorem load_idempotent ti db s1 db1 s2 db2 rs :
  xcom_pull ti "transformed_models" transform_task_id = Some rs →
  NoDup (record_id <$> rs) →
  pk_unique db →
  load_to_postgres ti db = (Ok s1, db1) →
  load_to_postgres ti db1 = (Ok s2, db2) →
  created (ai_models db2) ≡ₚ created (ai_models db1).
Proof.
  intros Hpull Hids Hpk Hload1 Hload2.
  by rewrite (load_twice_table _ _ _ _ _ _ _ Hpull Hids Hpk Hload1 Hload2).
Qed.

Lemma load_idempotent_witness :
  created (ai_models sample_loaded_twice)
  ≡ₚ created (ai_models sample_loaded_once).
Proof.
  apply (load_idempotent (sample_load_run [sample_clean_m1; sample_clean_m2])
           (sample_db []) "loaded 2 models" sample_loaded_once
           "loaded 2 models" sample_loaded_twice
           [sample_clean_m1; sample_clean_m2]).
  - reflexivity.
  - apply (bool_decide_unpack _). vm_compute. exact I.
  - exact I.
  - reflexivity.
  - reflexivity.
Defined.

(** X16: a retry repairs a failed load: when a load of a list with
    distinct ids raised, wherever it did, and the next load of the same
    list succeeds, the table is the one a single successful load from
    the initial table gives. *)
Theorem load_retry_after_failure ti db e db1 s db2 db_clean s' db' rs :
  xcom_pull ti "transformed_models" transform_task_id = Some rs →
  NoDup (record_id <$> rs) →
  pk_unique db →
  load_to_postgres ti db = (Raise e, db1) →
  load_to_postgres ti db1 = (Ok s, db2) →
  ai_models db_clean = ai_models db →
  load_to_postgres ti db_clean = (Ok s', db') →
  ai_models db2 = ai_models db'.
Proof.
  intros Hpull Hids Hpk Hload1 Hload2 Hsame Hclean.
  assert (Hrs : rs ≠ []).
  { intros ->. unfold load_to_postgres in Hload1. by rewrite Hpull in Hload1. }
  destruct (load_to_postgres_ok_inv _ _ _ _ _ Hpull Hclean)
    as [[-> _] | (ps & Hbound & ->)]; [done |].
  rewrite Hsame. by eapply load_again_table.
Qed.

Lemma load_retry_after_failure_witness :
  ai_models
    (snd (load_to_postgres
            (sample_load_run [sample_clean_m1; sample_clean_m2])
            (snd (load_to_postgres
                    (sample_load_run [sample_clean_m1; sample_clean_m2])
                    (sample_db [false; false; true])))))
  = ai_models sample_loaded_once.
Proof.
  apply (load_retry_after_failure
           (sample_load_run [sample_clean_m1; sample_clean_m2])
           (sample_db [false; false; true])
           (DatabaseError "statement failed")
           (snd (load_to_postgres
                   (sample_load_run [sample_clean_m1; sample_clean_m2])
                   (sample_db [false; false; true])))
           "loaded 2 models" _ (sample_db []) "loaded 2 models"
           sample_loaded_once [sample_clean_m1; sample_clean_m2]).
  - reflexivity.
  - apply (bool_decide_unpack _). vm_compute. exact I.
  - exact I.
  - reflexivity.
  - reflexivity.
  - reflexivity.
  - reflexivity.
Defined.

End LoadMore.

(** * Properties of a run of the DAG *)

Section PipelineFacts.

Import Extract Transform Load Pipeline.

Variable list_models : request -> listing.
Variable py_str : value -> string.

Lemma parameters_of_clean mid m :
  parameters_of (clean_record mid m)
  = Ok {| model_id := mid;
          author := py_or (dict_get m "author") (VStr "N/A");
          pipeline_tag := py_or (dict_get m "pipeline_tag") (VStr "N/A");
          tags := py_or (dict_get m "tags") (VList []);
          last_modified := dict_get m "last_modified" |}.
Proof.
  destruct (clean_record_lookup mid m) as (Hi & Ha & Hp & Ht & Hl & _).
  unfold parameters_of.
  rewrite (dict_item_present _ _ _ Hi), bind_ok.
  rewrite (dict_item_present _ _ _ Ha), bind_ok.
  rewrite (dict_item_present _ _ _ Hp), bind_ok.
  rewrite (dict_item_present _ _ _ Ht), bind_ok.
  by rewrite (dict_item_present _ _ _ Hl), bind_ok.
Qed.

(** X17: the loader finds its five keys in every record the
    transformer emits: the parameter tuples of a transformer output
    exist, with a non-empty string as [model_id] and an [author] and a
    [pipeline_tag] that are never falsy. *)
Theorem transform_output_loadable raw out :
  transform_records raw = Ok out →
  ∃ ps, bound out ps
        ∧ Forall (fun p => (∃ s, model_id p = VStr s ∧ s ≠ "")
                           ∧ py_truthy (author p) = true
                           ∧ py_truthy (pipeline_tag p) = true) ps.
Proof.
  intros Hout. pose proof (transform_output_clean _ _ Hout) as Hclean.
  clear Hout. induction Hclean as [| r out (m & s & _ & -> & _ & Hne) _ IH].
  - exists []. split; constructor.
  - destruct IH as (ps & Hbound & Hps).
    eexists (_ :: ps). split.
    + constructor; [apply parameters_of_clean | exact Hbound].
    + constructor; [| exact Hps]. simpl. split_and!.
      * by exists s.
      * by apply py_or_truthy.
      * by apply py_or_truthy.
Qed.

Lemma transform_output_loadable_witness :
  ∃ ps, bound [sample_clean_m1; sample_clean_m2] ps
        ∧ Forall (fun p => (∃ s, model_id p = VStr s ∧ s ≠ "")
                           ∧ py_truthy (author p) = true
                           ∧ py_truthy (pipeline_tag p) = true) ps.
Proof.
  apply (transform_output_loadable
           [sample_m1; sample_anonymous; sample_m2; sample_m1_again]).
  reflexivity.
Defined.

Lemma extract_pushes ti :
  ∃ s raw,
    extract_model_data list_models py_str ti
    = (Ok s, xcom_push ti "raw_models" raw).
Proof.
  unfold extract_model_data.
  destruct (fetch_raw_models list_models py_str) as [raw | e]; by eexists _, _.
Qed.

Lemma pull_after_push tid store key v :
  xcom_pull (task tid (xcom (xcom_push (task tid store) key v))) key tid
  = Some v.
Proof. unfold xcom_pull, xcom_push, task. simpl. by rewrite lookup_insert_eq. Qed.

Lemma lookup_clear_other tid store k :
  k.1 ≠ tid → clear_xcom_data tid store !! k = store !! k.
Proof.
  intros Hk. unfold clear_xcom_data. rewrite map_lookup_imap.
  destruct (store !! k); simpl; [| done]. by rewrite decide_False.
Qed.

Lemma lookup_clear_own tid store k :
  k.1 = tid → clear_xcom_data tid store !! k = None.
Proof.
  intros Hk. unfold clear_xcom_data. rewrite map_lookup_imap.
  destruct (store !! k); simpl; [| done]. by rewrite decide_True.
Qed.

(** A task that starts after another one finds what that one pushed. *)
Lemma pull_after_start tid tid' store key v :
  tid' ≠ tid →
  xcom_pull (start tid' (xcom (xcom_push (start tid store) key v))) key tid
  = Some v.
Proof.
  intros Hne. unfold xcom_pull, start, task, xcom_push. simpl.
  rewrite lookup_clear_other by (simpl; congruence).
  by rewrite lookup_insert_eq.
Qed.

(** X18: when the extraction fails, a run still ends with three
    statuses and without an exception: the transformer is given the
    empty list and pushes the empty list, the loader has nothing to
    load, and the database is not contacted. *)
Theorem run_after_failed_extraction store db e :
  fetch_raw_models list_models py_str = Raise e →
  ∃ store',
    run list_models py_str store db
    = (Ok ("Extract failed", "Transform completed successfully",
           "No data to load"), store', db)
    ∧ store' !! (extract_task_id, "raw_models") = Some []
    ∧ store' !! (transform_task_id, "transformed_models") = Some [].
Proof.
  intros Hfetch. unfold run.
  rewrite (extract_model_data_raise list_models py_str _ e Hfetch).
  unfold transform_model_data.
  rewrite (pull_after_start extract_task_id transform_task_id) by done.
  cbn [or_empty]. replace (transform_records []) with (Ok (A := list dict) [])
    by reflexivity.
  cbv zeta. unfold load_to_postgres.
  rewrite (pull_after_start transform_task_id load_task_id) by done.
  eexists. split; [reflexivity |].
  unfold start, task, xcom_push. simpl. split.
  - rewrite lookup_clear_other by done.
    rewrite lookup_insert_ne by done.
    rewrite lookup_clear_other by done.
    by rewrite lookup_insert_eq.
  - rewrite lookup_clear_other by done. by rewrite lookup_insert_eq.
Qed.

End PipelineFacts.

Lemma run_after_failed_extraction_witness :
  ∃ store',
    Pipeline.run sample_hub sample_str ∅ (sample_db [true])
    = (Ok ("Extract failed", "Transform completed successfully",
           "No data to load"), store', sample_db [true])
    ∧ store' !! (extract_task_id, "raw_models") = Some []
    ∧ store' !! (transform_task_id, "transformed_models") = Some [].
Proof.
  apply (run_after_failed_extraction sample_hub sample_str ∅
           (sample_db [true]) (AttributeError "lastModified")).
  reflexivity.
Defined.

Section PipelineEndToEnd.

Import Extract Transform Load Pipeline.

Variable list_models : request -> listing.
Variable py_str : value -> string.

Lemma raw_record_id m r :
  raw_record py_str m = Ok r → record_id r = dict_get m "id".
Proof.
  unfold raw_record.
  destruct (getattr m "id") as [v1 |] eqn:H1; simpl; [| done].
  destruct (attr_or m "author" VNone) as [v2 |]; simpl; [| done].
  destruct (attr_or m "pipeline_tag" VNone) as [v3 |]; simpl; [| done].
  destruct (attr_or m "tags" (VList [])) as [v4 |]; simpl; [| done].
  destruct (getattr m "lastModified") as [v5 |]; simpl; [| done].
  intros [= <-]. unfold getattr in H1. unfold record_id, dict_get.
  destruct (m !! "id") as [i |]; [| done]. injection H1 as ->.
  by rewrite lookup_insert_eq.
Qed.

Lemma transform_pushes ti r ti' :
  transform_model_data ti = (r, ti') →
  ti' = ti ∨ ∃ out, ti' = xcom_push ti "transformed_models" out.
Proof.
  unfold transform_model_data.
  destruct (transform_records _) as [out |]; intros [= <- <-]; eauto.
Qed.

(** X19: a run leaves the entries of other tasks alone: whatever is in
    the hand-off store under a task id that is none of the three of
    this chain is there unchanged when the run ends, with statuses or
    with an exception. Under the three ids the entries of earlier tries
    are deleted as each task starts. *)
Theorem run_keeps_other_entries store db r store' db' key :
  run list_models py_str store db = (r, store', db') →
  key.1 ≠ extract_task_id →
  key.1 ≠ transform_task_id →
  key.1 ≠ load_task_id →
  store' !! key = store !! key.
Proof.
  unfold run. intros Hrun Hextract Htransform Hload.
  destruct (extract_pushes list_models py_str (start extract_task_id store))
    as (s1 & raw & Hext).
  rewrite Hext in Hrun.
  assert (Hstore1 : xcom (xcom_push (start extract_task_id store)
                            "raw_models" raw) !! key = store !! key).
  { unfold xcom_push, start, task. simpl.
    rewrite lookup_insert_ne by (intros <-; done).
    by apply lookup_clear_other. }
  destruct (transform_model_data _) as [r2 ti2] eqn:Htr.
  assert (Hstore2 : xcom ti2 !! key = store !! key).
  { rewrite <- Hstore1.
    destruct (transform_pushes _ _ _ Htr) as [-> | [out ->]];
      unfold xcom_push, start, task; simpl.
    - by apply lookup_clear_other.
    - rewrite lookup_insert_ne by (intros <-; done).
      by apply lookup_clear_other. }
  destruct r2 as [s2 | e]; [| by injection Hrun as <- <- <-].
  cbv zeta in Hrun.
  destruct (load_to_postgres _ db) as [[s3 | e] db3];
    injection Hrun as <- <- <-; rewrite <- Hstore2;
    unfold start, task; simpl; by apply lookup_clear_other.
Qed.

(** X20: after a run that returns its three statuses on a table with a
    unique primary key, the key is still unique and every raw record
    with a valid [model_id] has exactly one row under that id, with an
    [author] and a [pipeline_tag] that are neither [None] nor empty. *)
Theorem run_loads_every_valid_model store db statuses store' db' :
  run list_models py_str store db = (Ok statuses, store', db') →
  pk_unique db →
  ∃ raw,
    store' !! (extract_task_id, "raw_models") = Some raw
    ∧ pk_unique db'
    ∧ ∀ m, m ∈ raw → valid_id (record_id m) = true →
        ∃ row rows,
          ai_models db' = Some rows
          ∧ rows_with (record_id m) rows = [row]
          ∧ py_truthy (author row) = true
          ∧ py_truthy (pipeline_tag row) = true.
Proof.
  unfold run. intros Hrun Hpk.
  destruct (extract_pushes list_models py_str (start extract_task_id store))
    as (s1 & raw & Hext).
  rewrite Hext in Hrun.
  destruct (transform_model_data _) as [[s2 | e] ti2] eqn:Htr; [| done].
  cbv zeta in Hrun.
  destruct (load_to_postgres _ db) as [[s3 | e] db3] eqn:Hload; [| done].
  injection Hrun as <- <- <-.
  destruct (transform_model_data_inv _ _ _ Htr) as (out & Hout & -> & _).
  rewrite (pull_after_start extract_task_id transform_task_id) in Hout
    by done.
  rewrite or_empty_some in Hout.
  pose proof (pull_after_start transform_task_id load_task_id
                (xcom (xcom_push (start extract_task_id store)
                         "raw_models" raw))
                "transformed_models" out) as Hpull'.
  specialize (Hpull' ltac:(done)).
  destruct (transform_records_spec _ _ Hout) as [Hids _].
  assert (Hnd : NoDup (record_id <$> out)).
  { rewrite Hids. apply first_occurrences_NoDup. }
  exists raw. split_and!.
  - unfold xcom_push, start, task. simpl.
    rewrite lookup_clear_other by done.
    rewrite lookup_insert_ne by done.
    rewrite lookup_clear_other by done.
    by rewrite lookup_insert_eq.
  - exact (load_keeps_pk _ _ _ _ _ Hpull' Hpk Hload).
  - intros m Hm Hvalid.
    assert (Hin : record_id m ∈ record_id <$> out).
    { rewrite Hids, first_occurrences_elem, list_elem_of_filter.
      split; [done | by apply list_elem_of_fmap_2]. }
    apply list_elem_of_fmap in Hin as (model & Hsame & Hmodel).
    destruct (load_rows _ _ _ _ _ _ Hpull' Hnd Hpk Hload Hmodel)
      as (p & rows & Hp & Hrows & Hone).
    exists p, rows.
    rewrite Hsame, <- (parameters_of_id _ _ Hp). split_and!; try done.
    + pose proof (transform_output_clean _ _ Hout) as Hclean.
      rewrite Forall_forall in Hclean.
      destruct (Hclean model Hmodel) as (m0 & s & _ & -> & _ & _).
      rewrite parameters_of_clean in Hp. injection Hp as <-. simpl.
      by apply py_or_truthy.
    + pose proof (transform_output_clean _ _ Hout) as Hclean.
      rewrite Forall_forall in Hclean.
      destruct (Hclean model Hmodel) as (m0 & s & _ & -> & _ & _).
      rewrite parameters_of_clean in Hp. injection Hp as <-. simpl.
      by apply py_or_truthy.
Qed.

(** X21: the transformer accepts what the extractor hands over: when
    the [id] of every listed object can be hashed, as a string or
    [None] can, the transform task that follows the extract task
    returns its status and pushes its output, whatever the extraction
    did. *)
Theorem transform_accepts_extract store :
  (∀ items stop,
     list_models hub_request = Listing items stop →
     Forall (fun m => hashable_id (dict_get m "id")) items) →
  ∃ s raw out,
    extract_model_data list_models py_str (task extract_task_id store)
    = (Ok s, xcom_push (task extract_task_id store) "raw_models" raw)
    ∧ transform_model_data
        (task transform_task_id
           (xcom (xcom_push (task extract_task_id store) "raw_models" raw)))
      = (Ok "Transform completed successfully",
         xcom_push
           (task transform_task_id
              (xcom (xcom_push (task extract_task_id store)
                       "raw_models" raw)))
           "transformed_models" out).
Proof.
  intros Hids.
  assert (Hraw : ∃ s raw,
             extract_model_data list_models py_str (task extract_task_id store)
             = (Ok s, xcom_push (task extract_task_id store) "raw_models" raw)
             ∧ Forall (fun r => hashable_id (record_id r)) raw).
  { unfold extract_model_data, fetch_raw_models.
    destruct (list_models hub_request) as [e | items stop] eqn:Hlist.
    - by exists "Extract failed", [].
    - destruct (comprehension py_str items stop) as [raw | e] eqn:Hraw;
        [| by exists "Extract failed", []].
      exists "Extract completed successfully", raw. split; [done |].
      destruct (comprehension_ok_inv _ _ _ _ Hraw) as [_ Hmap].
      specialize (Hids items stop eq_refl).
      clear Hraw Hlist. induction Hmap as [| m r items raw Hr _ IH];
        [constructor |].
      apply Forall_cons in Hids as [Hm Hitems].
      constructor; [by rewrite (raw_record_id _ _ Hr) | by apply IH]. }
  destruct Hraw as (s & raw & Hext & Hhash).
  destruct (transform_records_total raw Hhash) as [out Hout].
  exists s, raw, out. split; [done |].
  unfold transform_model_data.
  replace (xcom_pull _ "raw_models" extract_task_id) with (Some raw).
  - by rewrite or_empty_some, Hout.
  - unfold xcom_pull, xcom_push, task. simpl. by rewrite lookup_insert_eq.
Qed.

End PipelineEndToEnd.

Lemma run_result_eta {A B C} (t : A * B * C) :
  t = (fst (fst t), snd (fst t), snd t).
Proof. by destruct t as [[a b] c]. Qed.

Lemma run_keeps_other_entries_witness :
  snd (fst (Pipeline.run sample_hub_small sample_str
              (<[("validate_models", "report") := [sample_m2]]> ∅)
              (sample_db [])))
    !! ("validate_models", "report")
  = (<[("validate_models", "report") := [sample_m2]]> ∅
     : gmap (string * string) _) !! ("validate_models", "report").
Proof.
  apply (run_keeps_other_entries sample_hub_small sample_str _ (sample_db [])
           (fst (fst (Pipeline.run sample_hub_small sample_str
                        (<[("validate_models", "report") := [sample_m2]]> ∅)
                        (sample_db []))))
           _
           (snd (Pipeline.run sample_hub_small sample_str
                   (<[("validate_models", "report") := [sample_m2]]> ∅)
                   (sample_db [])))).
  - apply run_result_eta.
  - discriminate.
  - discriminate.
  - discriminate.
Defined.

Lemma run_loads_every_valid_model_witness :
  ∃ raw,
    snd (fst (Pipeline.run sample_hub_small sample_str ∅ (sample_db [])))
      !! (extract_task_id, "raw_models") = Some raw
    ∧ pk_unique (snd (Pipeline.run sample_hub_small sample_str ∅ (sample_db [])))
    ∧ ∀ m, m ∈ raw → valid_id (record_id m) = true →
        ∃ row rows,
          ai_models
            (snd (Pipeline.run sample_hub_small sample_str ∅ (sample_db [])))
          = Some rows
          ∧ rows_with (record_id m) rows = [row]
          ∧ py_truthy (author row) = true
          ∧ py_truthy (pipeline_tag row) = true.
Proof.
  apply (run_loads_every_valid_model sample_hub_small sample_str ∅
           (sample_db [])
           ("Extract completed successfully",
            "Transform completed successfully", "loaded 1 models")).
  - reflexivity.
  - exact I.
Defined.

Lemma transform_accepts_extract_witness :
  ∃ s raw out,
    Extract.extract_model_data sample_hub_small sample_str
      (Pipeline.task extract_task_id ∅)
    = (Ok s, xcom_push (Pipeline.task extract_task_id ∅) "raw_models" raw)
    ∧ Transform.transform_model_data
        (Pipeline.task transform_task_id
           (xcom (xcom_push (Pipeline.task extract_task_id ∅)
                    "raw_models" raw)))
      = (Ok "Transform completed successfully",
         xcom_push
           (Pipeline.task transform_task_id
              (xcom (xcom_push (Pipeline.task extract_task_id ∅)
                       "raw_models" raw)))
           "transformed_models" out).
Proof.
  apply (transform_accepts_extract sample_hub_small sample_str ∅).
  intros items stop [= <- <-].
  constructor; [exact I | constructor].
Defined.
